(** * OCPP playground: charge point client and central system handlers

    A shallow embedding of [client/client.py] and [server/server.py].

    The coroutines of the two classes are modelled as computations in a
    small state-and-exception monad.  What a coroutine does to the outside
    (the Calls it hands to [self.call], its sleeps, its log records, the
    tasks it creates) is appended to a trace; what the outside gives back
    (the outcome of each Call, the wall clock) is read from an
    environment that may depend on everything that happened before.

    Each coroutine is modelled on its own: the interleaving of the
    heartbeat task with the scenario steps is not part of the model. *)

From Stdlib Require Import ZArith List Ascii String Bool Arith Lia.
Import ListNotations.
Local Open Scope string_scope.
Local Open Scope list_scope.
Local Open Scope Z_scope.

(* ===================================================================== *)
(** ** Enumerations and datatypes of the protocol library *)
(* ===================================================================== *)

(** Modelled from the spec: the [RegistrationStatus] enumeration of
    [ocpp.v16.enums], which the repository imports and does not declare
    (spec, sections 3 and 6: Pending, Accepted, Rejected). *)
Module RegistrationStatus.
Inductive t : Type := accepted | pending | rejected.

Definition eqb (a b : t) : bool :=
  match a, b with
  | accepted, accepted | pending, pending | rejected, rejected => true
  | _, _ => false
  end.

End RegistrationStatus.

(** Modelled from the spec: the [AuthorizationStatus] enumeration of
    [ocpp.v16.enums] (spec, section 6: the status of an idTagInfo), which
    the repository imports and does not declare. *)
Module AuthorizationStatus.
Inductive t : Type := accepted | blocked | expired | invalid | concurrent_tx.
End AuthorizationStatus.

(** Modelled from the spec: the one member of [ChargePointErrorCode]
    (of [ocpp.v16.enums]) that the client uses. *)
Module ChargePointErrorCode.
Inductive t : Type := no_error.
End ChargePointErrorCode.

(** The [status] argument of a StatusNotification as the client builds it:
    either the member of [ChargePointStatus] bound to a name
    ([ChargePointStatus[name]]) or a plain string. *)
Inductive status_arg : Type :=
| EnumMember (name : string)
| RawString (s : string).

(** [ocpp.v16.datatypes] *)
Record IdTagInfo : Type := mkIdTagInfo {
  status : AuthorizationStatus.t;
  parent_id_tag : option string;
  expiry_date : option string
}.

Record SampledValue : Type := mkSampledValue { value : string }.

Record MeterValue : Type := mkMeterValue {
  timestamp : string;
  sampled_value : list SampledValue
}.

(** Request payloads, [ocpp.v16.call]. *)
Module call.
Inductive request : Type :=
| BootNotification (charge_point_model charge_point_vendor : string)
| Heartbeat
| StatusNotification (connector_id : Z) (error_code : ChargePointErrorCode.t)
                     (status : status_arg) (timestamp : string)
| Authorize (id_tag : string)
| StartTransaction (connector_id : Z) (id_tag : string) (meter_start : Z)
                   (timestamp : string)
| MeterValues (connector_id : Z) (transaction_id : option Z)
              (meter_value : list MeterValue)
| StopTransaction (transaction_id : Z) (meter_stop : Z) (timestamp : string).
End call.

(** Response payloads, [ocpp.v16.call_result]. *)
Module call_result.
Inductive response : Type :=
| BootNotification (current_time : string) (interval : Z)
                   (status : RegistrationStatus.t)
| Heartbeat (current_time : string)
| StatusNotification
| Authorize (id_tag_info : IdTagInfo)
| StartTransaction (transaction_id : Z) (id_tag_info : IdTagInfo)
| MeterValues
| StopTransaction (id_tag_info : IdTagInfo).
End call_result.

(* ===================================================================== *)
(** ** Effects: trace, environment and monad *)
(* ===================================================================== *)

Inductive level : Type := INFO | WARNING.

Inductive task : Type := heartbeat_loop_task.

(** What a coroutine does to the outside, in order.  A log record keeps
    the level and the format string; its arguments are not rendered. *)
Inductive event : Type :=
| Call (req : call.request)          (* await self.call(req) *)
| Sleep (delay : Z)                  (* await asyncio.sleep(delay) *)
| Log (lvl : level) (fmt : string)   (* logging.info / logging.warning *)
| Print (msg : string)               (* print(...) *)
| CreateTask (t : task).             (* asyncio.create_task(...) *)

Inductive exn : Type :=
| TimeoutError          (* no response within the deadline *)
| AttributeError        (* attribute read on an object that lacks it *)
| ConnectionClosed
| OtherError (what : string).

(** How [self.call] ends: it returns a response object, or [None], or it
    raises. *)
Inductive outcome : Type :=
| Returns (resp : option call_result.response)
| Raises (e : exn).

(** The outside world.  Both components see the trace so far, so a peer
    may answer the same request differently at different times. *)
Record env : Type := Env {
  transport : list event -> call.request -> outcome;
  now : list event -> string   (* datetime.now(timezone.utc).isoformat() *)
}.

(** The result of running a coroutine: it returned, an exception escaped
    it, or the run was cut while the coroutine was still going (only the
    endless heartbeat loop ends this way). *)
Inductive result (A : Type) : Type :=
| Ok (a : A)
| Raised (e : exn)
| Unfinished.
Arguments Ok {A} a.
Arguments Raised {A} e.
Arguments Unfinished {A}.

Record world (S : Type) : Type := World { self : S; trace : list event }.
Arguments World {S} self trace.
Arguments self {S} w.
Arguments trace {S} w.

Definition M (S A : Type) : Type := world S -> result A * world S.

Definition ret {S A} (a : A) : M S A := fun w => (Ok a, w).

(** State changes made before an exception stay: the world is threaded
    through the failure. *)
Definition bind {S A B} (m : M S A) (k : A -> M S B) : M S B :=
  fun w =>
    match m w with
    | (Ok a, w') => k a w'
    | (Raised e, w') => (Raised e, w')
    | (Unfinished, w') => (Unfinished, w')
    end.

Definition raise {S A} (e : exn) : M S A := fun w => (Raised e, w).

Declare Scope py_scope.
Delimit Scope py_scope with py.
Notation "x <- m ;; k" := (bind m (fun x => k))
  (at level 61, m at next level, right associativity) : py_scope.
Notation "m ;; k" := (bind m (fun _ => k))
  (at level 61, right associativity) : py_scope.
Local Open Scope py_scope.

Definition emit {S} (e : event) : M S unit :=
  fun w => (Ok tt, World (self w) (trace w ++ [e])).

Definition gets {S A} (f : S -> A) : M S A := fun w => (Ok (f (self w)), w).

Definition modify {S} (f : S -> S) : M S unit :=
  fun w => (Ok tt, World (f (self w)) (trace w)).

Definition logging_info {S} (fmt : string) : M S unit := emit (Log INFO fmt).
Definition logging_warning {S} (fmt : string) : M S unit := emit (Log WARNING fmt).
Definition print {S} (msg : string) : M S unit := emit (Print msg).
Definition asyncio_sleep {S} (delay : Z) : M S unit := emit (Sleep delay).
Definition asyncio_create_task {S} (t : task) : M S unit := emit (CreateTask t).

(** [datetime.now(timezone.utc).isoformat()] *)
Definition utcnow {S} (E : env) : M S string :=
  fun w => (Ok (now E (trace w)), w).

(** [await self.call(req)]: the request goes out (it is on the trace
    whatever happens next), then the peer's outcome decides. *)
Definition self_call {S} (E : env) (req : call.request)
  : M S (option call_result.response) :=
  fun w =>
    let w' := World (self w) (trace w ++ [Call req]) in
    match transport E (trace w) req with
    | Returns resp => (Ok resp, w')
    | Raises e => (Raised e, w')
    end.

(** Attribute reads on whatever [self.call] returned. *)
Definition getattr_status {S} (r : option call_result.response)
  : M S RegistrationStatus.t :=
  match r with
  | Some (call_result.BootNotification _ _ st) => ret st
  | _ => raise AttributeError
  end.

Definition getattr_interval {S} (r : option call_result.response) : M S Z :=
  match r with
  | Some (call_result.BootNotification _ i _) => ret i
  | _ => raise AttributeError
  end.

Definition getattr_transaction_id {S} (r : option call_result.response) : M S Z :=
  match r with
  | Some (call_result.StartTransaction tid _) => ret tid
  | _ => raise AttributeError
  end.

(** The Calls on a trace, in order. *)
Fixpoint calls_of (t : list event) : list call.request :=
  match t with
  | [] => []
  | Call req :: t' => req :: calls_of t'
  | _ :: t' => calls_of t'
  end.

(** The tasks created on a trace, in order. *)
Fixpoint tasks_of (t : list event) : list task :=
  match t with
  | [] => []
  | CreateTask k :: t' => k :: tasks_of t'
  | _ :: t' => tasks_of t'
  end.

(** The sleeps on a trace, in order. *)
Fixpoint sleeps_of (t : list event) : list Z :=
  match t with
  | [] => []
  | Sleep d :: t' => d :: sleeps_of t'
  | _ :: t' => sleeps_of t'
  end.

(* ===================================================================== *)
(** ** client/client.py *)
(* ===================================================================== *)

Module client.

(** The fields [ChargePoint.__init__] sets up, with the identity kept
    by the base class. *)
Record ChargePoint : Type := mkChargePoint {
  id : string;
  heartbeat_interval : Z;
  current_transaction_id : option Z
}.

Definition init (cp_id : string) : ChargePoint :=
  mkChargePoint cp_id 10 None.

Definition set_heartbeat_interval (i : Z) (cp : ChargePoint) : ChargePoint :=
  mkChargePoint (id cp) i (current_transaction_id cp).

Definition set_current_transaction_id (t : option Z) (cp : ChargePoint)
  : ChargePoint :=
  mkChargePoint (id cp) (heartbeat_interval cp) t.

Section Methods.

Variable E : env.

(** Samples are whatever the scenario file holds; the client only
    ever takes [str(v)] of one. *)
Variable sample : Type.
Variable str : sample -> string.

(** The names bound in [ChargePointStatus.__members__]; the
    enumeration is declared by the protocol library. *)
Variable ChargePointStatus_members : list string.

(* Boot + Heartbeat *)

Definition send_boot_notification : M ChargePoint unit :=
  let request := call.BootNotification "MyTestModel" "MyStartup" in
  logging_info "%s: sending BootNotification" ;;
  response <- self_call E request ;;
  logging_info "%s: BootNotification response: %s" ;;
  st <- getattr_status response ;;
  if RegistrationStatus.eqb st RegistrationStatus.accepted then
    print "✓ Connected to central system." ;;
    i <- getattr_interval response ;;
    modify (set_heartbeat_interval i) ;;
    asyncio_create_task heartbeat_loop_task
  else
    print "/!\ BootNotification not accepted:".

(** [while True:] runs for as many rounds as there is fuel; a run that
    uses all of it is [Unfinished], the loop itself has no exit. *)
Fixpoint heartbeat_loop (fuel : nat) : M ChargePoint unit :=
  match fuel with
  | O => fun w => (Unfinished, w)
  | S fuel' =>
      d <- gets heartbeat_interval ;;
      asyncio_sleep d ;;
      let req := call.Heartbeat in
      logging_info "%s: sending Heartbeat" ;;
      resp <- self_call E req ;;
      logging_info "%s: Heartbeat response: %s" ;;
      heartbeat_loop fuel'
  end.

(* StatusNotification *)

Definition send_status_notification (connector_id : Z) (status : string)
  : M ChargePoint unit :=
  let status_enum :=
    if existsb (String.eqb status) ChargePointStatus_members
    then EnumMember status
    else RawString status in
  ts <- utcnow E ;;
  let req := call.StatusNotification connector_id
               ChargePointErrorCode.no_error status_enum ts in
  logging_info "%s: sending StatusNotification %s on connector %s" ;;
  resp <- self_call E req ;;
  logging_info "%s: StatusNotification response: %s".

(* Authorize *)

Definition send_authorize (id_tag : string)
  : M ChargePoint (option call_result.response) :=
  let req := call.Authorize id_tag in
  logging_info "%s: sending Authorize for idTag=%s" ;;
  resp <- self_call E req ;;
  logging_info "%s: Authorize response: %s" ;;
  ret resp.

(* StartTransaction *)

Definition send_start_transaction (connector_id : Z) (id_tag : string)
  : M ChargePoint (option call_result.response) :=
  ts <- utcnow E ;;
  let req := call.StartTransaction connector_id id_tag 0 ts in
  logging_info "%s: sending StartTransaction(connector=%s, idTag=%s)" ;;
  resp <- self_call E req ;;
  logging_info "%s: StartTransaction response: %s" ;;
  tid <- getattr_transaction_id resp ;;
  modify (set_current_transaction_id (Some tid)) ;;
  logging_info "%s: stored transaction_id=%s" ;;
  ret resp.

(* MeterValues *)

(** [for v in values:], with the transaction id read from [self] in
    every round as the source does ([transaction_id] is an optional
    field of the request, so whatever [self] holds goes in). *)
Fixpoint send_meter_values_loop (connector_id : Z) (values : list sample)
  : M ChargePoint unit :=
  match values with
  | [] => ret tt
  | v :: rest =>
      ts <- utcnow E ;;
      let mv := mkMeterValue ts [mkSampledValue (str v)] in
      cur <- gets current_transaction_id ;;
      let req := call.MeterValues connector_id cur [mv] in
      logging_info "%s: sending MeterValues value=%s" ;;
      resp <- self_call E req ;;
      logging_info "%s: MeterValues response: %s" ;;
      send_meter_values_loop connector_id rest
  end.

Definition send_meter_values (connector_id : Z) (values : list sample)
  : M ChargePoint unit :=
  cur <- gets current_transaction_id ;;
  match cur with
  | None =>
      logging_warning "%s: no active transaction, skipping MeterValues"
  | Some _ => send_meter_values_loop connector_id values
  end.

(* StopTransaction *)

Definition send_stop_transaction (meter_stop : Z) : M ChargePoint unit :=
  cur <- gets current_transaction_id ;;
  match cur with
  | None =>
      logging_warning "%s: no active transaction, skipping StopTransaction"
  | Some tid =>
      ts <- utcnow E ;;
      let req := call.StopTransaction tid meter_stop ts in
      logging_info
        "%s: sending StopTransaction(transaction_id=%s, meter_stop=%s)" ;;
      resp <- self_call E req ;;
      logging_info "%s: StopTransaction response: %s" ;;
      modify (set_current_transaction_id None)
  end.

End Methods.

End client.

(* ===================================================================== *)
(** ** The payload check of the protocol library *)
(* ===================================================================== *)

(** Modelled from the spec: the values of a connector status (spec,
    section 3), the status values a StatusNotification may carry. *)
Definition status_values : list string :=
  ["Available"; "Preparing"; "Charging"; "SuspendedEVSE"; "SuspendedEV";
   "Finishing"; "Reserved"; "Unavailable"; "Faulted"].

(** The exceptions of the library and of Python that the model names. *)
Definition FormatViolationError : exn := OtherError "FormatViolationError".
Definition TypeConstraintViolationError : exn :=
  OtherError "TypeConstraintViolationError".
Definition TypeError : exn := OtherError "TypeError".

(** A string of at most 20 characters; a character is one [ascii] of
    the string. *)
Definition fits20 (s : string) : bool := (String.length s <=? 20)%nat.

(** Modelled from the spec: the validation of a payload against the
    schema of its action (spec, section 4.3: validated before the handler
    is invoked), which the protocol library does on both sides, before a
    Call is sent and before a received Call reaches its handler; the
    repository does not contain it.  Payloads are typed here, so what is
    left to check is the status of a StatusNotification, which has to be
    one of the status values (a member of the enumeration always is), and
    the 20 characters OCPP 1.6 allows for an idTag, a vendor and a model.
    [None]: the payload passes. *)
Definition schema_error (req : call.request) : option exn :=
  match req with
  | call.BootNotification model vendor =>
      if fits20 model && fits20 vendor then None
      else Some TypeConstraintViolationError
  | call.StatusNotification _ _ (RawString s) _ =>
      if existsb (String.eqb s) status_values then None
      else Some FormatViolationError
  | call.Authorize tag | call.StartTransaction _ tag _ _ =>
      if fits20 tag then None else Some TypeConstraintViolationError
  | _ => None
  end.

(* ===================================================================== *)
(** ** server/server.py *)
(* ===================================================================== *)

Module server.

(** The server-side object of one connection; it has no fields of its
    own beside the identity kept by the base class. *)
Record CentralSystemChargePoint : Type := mkCentralSystemChargePoint {
  id : string
}.

(** [**kwargs]: the fields of the payload the handler does not name. *)
Definition kwargs : Type := list (string * string).

Section Handlers.

Variable E : env.

Definition on_boot_notification
  (charge_point_vendor charge_point_model : string) (extra : kwargs)
  : M CentralSystemChargePoint call_result.response :=
  logging_info "BootNotification from CP '%s' - vendor=%s model=%s extra=%s" ;;
  t <- utcnow E ;;
  ret (call_result.BootNotification t 10 RegistrationStatus.accepted).

Definition on_heartbeat : M CentralSystemChargePoint call_result.response :=
  logging_info "Heartbeat from CP '%s'" ;;
  t <- utcnow E ;;
  ret (call_result.Heartbeat t).

Definition on_status_notification
  (connector_id : Z) (error_code : ChargePointErrorCode.t)
  (status : status_arg) (extra : kwargs)
  : M CentralSystemChargePoint call_result.response :=
  logging_info
    "StatusNotification from CP '%s' - connector=%s status=%s error=%s extra=%s" ;;
  ret call_result.StatusNotification.

Definition on_authorize (id_tag : string) (extra : kwargs)
  : M CentralSystemChargePoint call_result.response :=
  logging_info "Authorize from CP '%s' - idTag=%s extra=%s" ;;
  let id_tag_info := mkIdTagInfo AuthorizationStatus.accepted None None in
  ret (call_result.Authorize id_tag_info).

Definition on_start_transaction
  (connector_id : Z) (id_tag : string) (meter_start : Z)
  (timestamp : string) (extra : kwargs)
  : M CentralSystemChargePoint call_result.response :=
  logging_info
    "StartTransaction from CP '%s' - connector=%s idTag=%s meter_start=%s ts=%s extra=%s" ;;
  (* In a real system, generate/stash a transaction id. *)
  let transaction_id := 1 in
  let id_tag_info := mkIdTagInfo AuthorizationStatus.accepted None None in
  ret (call_result.StartTransaction transaction_id id_tag_info).

Definition on_meter_values
  (connector_id : Z) (transaction_id : Z)
  (meter_value : list MeterValue) (extra : kwargs)
  : M CentralSystemChargePoint call_result.response :=
  logging_info
    "MeterValues from CP '%s' - connector=%s tx_id=%s meter_value=%s extra=%s" ;;
  ret call_result.MeterValues.

Definition on_stop_transaction
  (transaction_id : Z) (meter_stop : Z) (timestamp : string)
  (extra : kwargs)
  : M CentralSystemChargePoint call_result.response :=
  logging_info
    "StopTransaction from CP '%s' - tx_id=%s meter_stop=%s ts=%s extra=%s" ;;
  let id_tag_info := mkIdTagInfo AuthorizationStatus.accepted None None in
  ret (call_result.StopTransaction id_tag_info).

(** The routing the [@on(Action....)] decorators set up.  The library
    checks the payload first and refuses it without running a handler;
    a payload that passes goes to the handler registered for its action,
    its fields as keyword arguments.  [on_meter_values] names
    [transaction_id] as a parameter of its own, so a MeterValues payload
    without that (optional) field makes the call of the handler fail.
    An exception here is what the library answers with a CallError; a
    returned value is the payload of the CallResult. *)
Definition route (req : call.request)
  : M CentralSystemChargePoint call_result.response :=
  match schema_error req with
  | Some e => raise e
  | None =>
      match req with
      | call.BootNotification model vendor =>
          on_boot_notification vendor model []
      | call.Heartbeat => on_heartbeat
      | call.StatusNotification c ec st ts =>
          on_status_notification c ec st [("timestamp", ts)]
      | call.Authorize tag => on_authorize tag []
      | call.StartTransaction c tag ms ts =>
          on_start_transaction c tag ms ts []
      | call.MeterValues c (Some tid) mv => on_meter_values c tid mv []
      | call.MeterValues c None mv => raise TypeError
      | call.StopTransaction tid ms ts => on_stop_transaction tid ms ts []
      end
  end.

(** One connection, as [on_connect] serves it: a fresh
    [CentralSystemChargePoint] for the path-derived id answers the
    Calls that arrive on it, in order.  What is kept are the CallResults;
    a Call answered with a CallError leaves none, and the connection goes
    on with the next Call. *)
Fixpoint serve_calls (reqs : list call.request)
  (w : world CentralSystemChargePoint)
  : list call_result.response * world CentralSystemChargePoint :=
  match reqs with
  | [] => ([], w)
  | req :: rest =>
      match route req w with
      | (Ok resp, w') =>
          let (resps, w'') := serve_calls rest w' in (resp :: resps, w'')
      | (_, w') => serve_calls rest w'
      end
  end.

Definition on_connect (charge_point_id : string) (reqs : list call.request)
  : list call_result.response * world CentralSystemChargePoint :=
  let cp := mkCentralSystemChargePoint charge_point_id in
  serve_calls reqs (World cp [Log INFO "New CP connected: %s"]).

(** The server over its lifetime: every connection is served by
    [on_connect]; nothing is carried from one connection to the next. *)
Definition serve (connections : list (string * list call.request))
  : list (string * list call_result.response) :=
  map (fun c => (fst c, fst (on_connect (fst c) (snd c)))) connections.

End Handlers.

(** The transaction ids the server handed out, in order. *)
Definition transaction_ids (answers : list (string * list call_result.response))
  : list Z :=
  flat_map
    (fun a =>
       flat_map
         (fun r => match r with
                   | call_result.StartTransaction tid _ => [tid]
                   | _ => []
                   end)
         (snd a))
    answers.

End server.

(* ===================================================================== *)
(** ** The charge point id in the connection path *)
(* ===================================================================== *)

(** The one string method the server uses. *)
Module pystr.

(** [s.split(sep)] for a separator of one character: the pieces between
    the separators, at least one piece. *)
Fixpoint split (sep : ascii) (s : string) : list string :=
  match s with
  | EmptyString => [EmptyString]
  | String c s' =>
      if Ascii.eqb c sep then EmptyString :: split sep s'
      else match split sep s' with
           | seg :: segs => String c seg :: segs
           | [] => [String c EmptyString]
           end
  end.

End pystr.

(** [connection.request.path.split("/")[-1]], the first statement of
    [on_connect]. *)
Definition charge_point_id_of_path (path : string) : string :=
  last (pystr.split "/"%char path) EmptyString.

(* ===================================================================== *)
(** ** client/scenario_runner.py *)
(* ===================================================================== *)

Module scenario_runner.

(** One step of the script: a JSON object, read here as the keys the
    runner looks at, each present or not, with values of the types the
    client's operations take. *)
Record step (sample : Type) : Type := mkStep {
  action : option string;
  seconds : option Z;
  connectorId : option Z;
  status : option string;
  idTag : option string;
  values : option (list sample);
  meterStop : option Z
}.
Arguments mkStep {sample}.
Arguments action {sample}.
Arguments seconds {sample}.
Arguments connectorId {sample}.
Arguments status {sample}.
Arguments idTag {sample}.
Arguments values {sample}.
Arguments meterStop {sample}.

(** The scenario file as [json.load] gives it. *)
Record scenario (sample : Type) : Type := mkScenario {
  cp_id : option string;
  server_url : option string;
  script : option (list (step sample))
}.
Arguments mkScenario {sample}.
Arguments cp_id {sample}.
Arguments server_url {sample}.
Arguments script {sample}.

Definition KeyError (key : string) : exn :=
  OtherError (String.append "KeyError: " key).

(** [d[key]] *)
Definition subscript {S A} (field : option A) (key : string) : M S A :=
  match field with
  | Some a => ret a
  | None => raise (KeyError key)
  end.

(** [d.get(key, default)] *)
Definition get {A} (field : option A) (default : A) : A :=
  match field with
  | Some a => a
  | None => default
  end.

(** How one round of [for step in scenario["script"]] ends. *)
Inductive flow : Type := Next | Break.

Section Runner.

Variable E : env.
Variable sample : Type.
Variable str : sample -> string.
Variable ChargePointStatus_members : list string.

Definition run_step (st : step sample) : M client.ChargePoint flow :=
  act <- subscript (action st) "action" ;;
  if String.eqb act "boot" then
    client.send_boot_notification E ;;
    ret Next
  else if String.eqb act "wait" then
    let secs := get (seconds st) 1 in
    logging_info "Scenario: waiting %s seconds" ;;
    asyncio_sleep secs ;;
    ret Next
  else if String.eqb act "status" then
    let connector_id := get (connectorId st) 1 in
    st_name <- subscript (status st) "status" ;;
    client.send_status_notification E ChargePointStatus_members
      connector_id st_name ;;
    ret Next
  else if String.eqb act "authorize" then
    id_tag <- subscript (idTag st) "idTag" ;;
    client.send_authorize E id_tag ;;
    ret Next
  else if String.eqb act "start_transaction" then
    let connector_id := get (connectorId st) 1 in
    id_tag <- subscript (idTag st) "idTag" ;;
    client.send_start_transaction E connector_id id_tag ;;
    ret Next
  else if String.eqb act "meter_values" then
    let connector_id := get (connectorId st) 1 in
    let vals := get (values st) [] in
    client.send_meter_values E sample str connector_id vals ;;
    ret Next
  else if String.eqb act "stop_transaction" then
    let meter_stop := get (meterStop st) 100 in
    client.send_stop_transaction E meter_stop ;;
    ret Next
  else if String.eqb act "exit" then
    logging_info "Scenario: exit requested, stopping." ;;
    ret Break
  else
    logging_warning "Unknown action in scenario: %s" ;;
    ret Next.

(** The [for] loop over the script. *)
Fixpoint run_script (steps : list (step sample)) : M client.ChargePoint unit :=
  match steps with
  | [] => ret tt
  | st :: rest =>
      f <- run_step st ;;
      match f with
      | Next => run_script rest
      | Break => ret tt
      end
  end.

(** [websockets.connect(target)]: the connection is made ([None]) or the
    attempt raises. *)
Variable websockets_connect : string -> option exn.

(** [run_scenario] from the loaded scenario on: the address it connects
    to, and the run of the script on the fresh charge point.  A key
    missing before the connection is made, or a connection that cannot
    be made, leaves no charge point behind.  The listener task
    ([cp.start()]) is the library's; what it delivers is what [E]
    holds. *)
Definition run_scenario (sc : scenario sample)
  : result unit * option (string * world client.ChargePoint) :=
  match cp_id sc with
  | None => (Raised (KeyError "cp_id"), None)
  | Some cp =>
      match server_url sc with
      | None => (Raised (KeyError "server_url"), None)
      | Some url =>
          let target := String.append url (String.append "/" cp) in
          match websockets_connect target with
          | Some e => (Raised e, None)
          | None =>
              let w := World (client.init cp) [] in
              match script sc with
              | None => (Raised (KeyError "script"), Some (target, w))
              | Some steps =>
                  let (r, w') := run_script steps w in
                  (r, Some (target, w'))
              end
          end
      end
  end.

End Runner.

End scenario_runner.

(* ===================================================================== *)
(** ** The library between the client and the server *)
(* ===================================================================== *)

(** How [self.call] ends when the peer is the central system of
    [server/server.py]: a payload that fails the library's check is
    refused before it is sent; a payload that passes gets the answer of
    the server's routing, the payload of the CallResult, or [None] where
    the server answered with a CallError (the library logs a CallError it
    receives and returns nothing). *)
Definition library_outcome (req : call.request)
  (answer : result call_result.response) : outcome :=
  match schema_error req with
  | Some e => Raises e
  | None =>
      match answer with
      | Ok resp => Returns (Some resp)
      | _ => Returns None
      end
  end.

(** What [asyncio.create_task(coro)] sets going.  The event loop runs the
    coroutine; what it ends in, a value or an exception, is kept in the
    task object and reaches another coroutine only through an await of
    the task.  The client drops the task it creates
    ([send_boot_notification] keeps no reference to it), so for the
    session a run of the task is a change of the world and nothing
    else. *)
Definition task_run {S A : Type} (body : M S A) : M S unit :=
  fun w => (Ok tt, snd (body w)).

(* ===================================================================== *)
(** ** Concrete peers, used to run the model *)
(* ===================================================================== *)

Module peers.

Definition fixed_clock : list event -> string :=
  fun _ => "2024-01-01T00:00:00+00:00".

(** A peer that never answers: every Call times out. *)
Definition silent : env := Env (fun _ _ => Raises TimeoutError) fixed_clock.

(** The central system of [server/server.py] at the other end, with the
    library in between. *)
Definition csms_answer (req : call.request) : outcome :=
  let cp := server.mkCentralSystemChargePoint "CP_1" in
  library_outcome req
    (fst (server.route (Env (fun _ _ => Returns None) fixed_clock) req
            (World cp []))).

Definition csms : env := Env (fun _ req => csms_answer req) fixed_clock.

(** A peer that answers whatever it is sent with the CallResult of the
    same action, filled in as the handlers of the central system fill it
    in, and checks nothing. *)
Definition willing_answer (req : call.request) : outcome :=
  let granted := mkIdTagInfo AuthorizationStatus.accepted None None in
  Returns
    (Some
       match req with
       | call.BootNotification _ _ =>
           call_result.BootNotification (fixed_clock []) 10
             RegistrationStatus.accepted
       | call.Heartbeat => call_result.Heartbeat (fixed_clock [])
       | call.StatusNotification _ _ _ _ => call_result.StatusNotification
       | call.Authorize _ => call_result.Authorize granted
       | call.StartTransaction _ _ _ _ => call_result.StartTransaction 1 granted
       | call.MeterValues _ _ _ => call_result.MeterValues
       | call.StopTransaction _ _ _ => call_result.StopTransaction granted
       end).

Definition willing : env := Env (fun _ req => willing_answer req) fixed_clock.

(** The willing peer for the first [n] Calls of the session, silence
    afterwards. *)
Definition csms_then_silent (n : nat) : env :=
  Env (fun h req =>
         if (List.length (calls_of h) <? n)%nat then willing_answer req
         else Raises TimeoutError)
      fixed_clock.

(** A central system that accepts the boot with a given interval. *)
Definition boot_with (st : RegistrationStatus.t) (i : Z) : env :=
  Env (fun _ req =>
         match req with
         | call.BootNotification _ _ =>
             Returns (Some (call_result.BootNotification
                              "2024-01-01T00:00:00+00:00" i st))
         | _ => csms_answer req
         end)
      fixed_clock.

(** A central system that hands out a given transaction id with a given
    authorization status. *)
Definition start_with (tid : Z) (st : AuthorizationStatus.t) : env :=
  Env (fun _ req =>
         match req with
         | call.StartTransaction _ _ _ _ =>
             Returns (Some (call_result.StartTransaction tid
                              (mkIdTagInfo st None None)))
         | _ => csms_answer req
         end)
      fixed_clock.

Definition cp_idle : world client.ChargePoint :=
  World (client.init "CP_1") [].

Definition cp_charging (tid : Z) : world client.ChargePoint :=
  World (client.mkChargePoint "CP_1" 10 (Some tid)) [].

(** Samples written as the strings [str] gives for them. *)
Definition str_id : string -> string := fun s => s.

Definition member_names : list string :=
  ["available"; "preparing"; "charging"; "faulted"].

End peers.

(* ===================================================================== *)
(** ** Reading traces *)
(* ===================================================================== *)

(** What a MeterValues Call carries beside its timestamps: the connector,
    the transaction id and the sampled values of each meter value. *)
Definition meter_values_core (req : call.request)
  : option (Z * option Z * list (list string)) :=
  match req with
  | call.MeterValues c tid mvs =>
      Some (c, tid, map (fun mv => map value (sampled_value mv)) mvs)
  | _ => None
  end.

(** What the MeterValues Call for one sample has to carry. *)
Definition sample_core {sample : Type} (str : sample -> string)
  (connector_id : Z) (tid : option Z) (v : sample)
  : option (Z * option Z * list (list string)) :=
  Some (connector_id, tid, [[str v]]).

(** The peer never lets a Call raise. *)
Definition always_returns (E : env) : Prop :=
  forall h req, exists resp, transport E h req = Returns resp.

(** Counted from a trace with [n0] Calls on it, the peer lets the next
    [k] Calls return. *)
Definition returns_next (E : env) (n0 k : nat) : Prop :=
  forall h req,
    (n0 <= List.length (calls_of h) < n0 + k)%nat ->
    exists resp, transport E h req = Returns resp.

(** The Call after those raises [e]. *)
Definition raises_at (E : env) (n : nat) (e : exn) : Prop :=
  forall h req, List.length (calls_of h) = n -> transport E h req = Raises e.

(** The peer is the central system of [server/server.py] behind the
    library: every Call ends as the library lets it end, refused, or
    answered by the server's routing in some state of the server and at
    some time. *)
Definition served_by (E : env) : Prop :=
  forall (h : list event) (req : call.request),
  exists (E' : env) (ws : world server.CentralSystemChargePoint),
    transport E h req = library_outcome req (fst (server.route E' req ws)).

(** The Call reaches its handler and the handler can be called with it:
    the payload passes the check, and a MeterValues payload names its
    transaction. *)
Definition handled (req : call.request) : bool :=
  match schema_error req, req with
  | Some _, _ => false
  | None, call.MeterValues _ None _ => false
  | None, _ => true
  end.

(** The outcome of every Call among the events [evs] that followed the
    trace [before]: what the peer held for that Call at that time. *)
Fixpoint call_outcomes (E : env) (before evs : list event) : list outcome :=
  match evs with
  | [] => []
  | Call req :: rest =>
      transport E before req :: call_outcomes E (before ++ [Call req]) rest
  | e :: rest => call_outcomes E (before ++ [e]) rest
  end.

Definition returned (o : outcome) : Prop := exists resp, o = Returns resp.

(** The events of [n] rounds of the heartbeat loop in which the Call
    returned: the sleep, the record of the sending, the Call, the record
    of the response. *)
Fixpoint heartbeat_rounds (d : Z) (n : nat) : list event :=
  match n with
  | O => []
  | S n' =>
      [Sleep d; Log INFO "%s: sending Heartbeat"; Call call.Heartbeat;
       Log INFO "%s: Heartbeat response: %s"] ++ heartbeat_rounds d n'
  end.

(** The events of the round in which the Call raised: nothing follows
    the Call. *)
Definition heartbeat_last_round (d : Z) : list event :=
  [Sleep d; Log INFO "%s: sending Heartbeat"; Call call.Heartbeat].

(** The payload the step makes the client build passes the library's
    check: a status that is a member name or a status value, an idTag of
    at most 20 characters. *)
Definition payload_ok {sample : Type} (members : list string)
  (st : scenario_runner.step sample) : bool :=
  match scenario_runner.action st with
  | None => true
  | Some act =>
      if String.eqb act "status" then
        match scenario_runner.status st with
        | Some s =>
            existsb (String.eqb s) members
            || existsb (String.eqb s) status_values
        | None => true
        end
      else if String.eqb act "authorize" || String.eqb act "start_transaction"
      then
        match scenario_runner.idTag st with
        | Some tag => fits20 tag
        | None => true
        end
      else true
  end.

(** A response is the CallResult of the request's action. *)
Definition answers (req : call.request) (resp : call_result.response) : bool :=
  match req, resp with
  | call.BootNotification _ _, call_result.BootNotification _ _ _
  | call.Heartbeat, call_result.Heartbeat _
  | call.StatusNotification _ _ _ _, call_result.StatusNotification
  | call.Authorize _, call_result.Authorize _
  | call.StartTransaction _ _ _ _, call_result.StartTransaction _ _
  | call.MeterValues _ _ _, call_result.MeterValues
  | call.StopTransaction _ _ _, call_result.StopTransaction _ => true
  | _, _ => false
  end.

(** Every status a response carries says Accepted. *)
Definition grants (resp : call_result.response) : bool :=
  match resp with
  | call_result.BootNotification _ _ RegistrationStatus.accepted => true
  | call_result.BootNotification _ _ _ => false
  | call_result.Authorize (mkIdTagInfo AuthorizationStatus.accepted _ _)
  | call_result.StartTransaction _ (mkIdTagInfo AuthorizationStatus.accepted _ _)
  | call_result.StopTransaction (mkIdTagInfo AuthorizationStatus.accepted _ _) =>
      true
  | call_result.Authorize _
  | call_result.StartTransaction _ _
  | call_result.StopTransaction _ => false
  | _ => true
  end.

(** A Call that belongs to a running transaction. *)
Definition of_transaction (req : call.request) : bool :=
  match req with
  | call.MeterValues _ _ _ | call.StopTransaction _ _ _ => true
  | _ => false
  end.

Definition is_start_transaction (req : call.request) : bool :=
  match req with
  | call.StartTransaction _ _ _ _ => true
  | _ => false
  end.

(** The step names its action, and the key its action reads with
    [step[...]] is there. *)
Definition has_required_keys {sample : Type}
  (st : scenario_runner.step sample) : bool :=
  match scenario_runner.action st with
  | None => false
  | Some act =>
      if String.eqb act "status" then
        match scenario_runner.status st with Some _ => true | None => false end
      else if String.eqb act "authorize" || String.eqb act "start_transaction"
      then
        match scenario_runner.idTag st with Some _ => true | None => false end
      else true
  end.

(** The actions the runner knows. *)
Definition known_actions : list string :=
  ["boot"; "wait"; "status"; "authorize"; "start_transaction";
   "meter_values"; "stop_transaction"; "exit"].

(** The step with every key that has a default written out. *)
Definition with_defaults {sample : Type} (st : scenario_runner.step sample)
  : scenario_runner.step sample :=
  scenario_runner.mkStep
    (scenario_runner.action st)
    (Some (scenario_runner.get (scenario_runner.seconds st) 1))
    (Some (scenario_runner.get (scenario_runner.connectorId st) 1))
    (scenario_runner.status st)
    (scenario_runner.idTag st)
    (Some (scenario_runner.get (scenario_runner.values st) []))
    (Some (scenario_runner.get (scenario_runner.meterStop st) 100)).

(** The current transaction is none, or the one with id 1. *)
Definition none_or_one (cp : client.ChargePoint) : Prop :=
  client.current_transaction_id cp = None \/
  client.current_transaction_id cp = Some 1.

(** The step asks for a StartTransaction. *)
Definition is_start_step {sample : Type} (st : scenario_runner.step sample)
  : bool :=
  match scenario_runner.action st with
  | Some act => String.eqb act "start_transaction"
  | None => false
  end.

Definition is_boot_step {sample : Type} (st : scenario_runner.step sample)
  : bool :=
  match scenario_runner.action st with
  | Some act => String.eqb act "boot"
  | None => false
  end.

(** What the outcome of a client operation, started in [w], keeps:
    the identity; with no transaction current and no StartTransaction
    asked for, no transaction afterwards and no Call of a transaction
    among the Calls sent; and, served by the central system of this
    repository, a return ([ok] says whether the operation can be expected
    to return) with the current transaction none or 1 if it was so
    before. *)
Definition keeps {A : Type} (E : env) (starts : bool) (ok : bool)
  (w : world client.ChargePoint)
  (out : result A * world client.ChargePoint) : Prop :=
  let (r, w') := out in
  client.id (self w') = client.id (self w) /\
  exists new : list call.request,
    calls_of (trace w') = calls_of (trace w) ++ new /\
    (client.current_transaction_id (self w) = None -> starts = false ->
     client.current_transaction_id (self w') = None /\
     Forall (fun req => of_transaction req = false) new) /\
    (served_by E ->
     (ok = true -> exists a : A, r = Ok a) /\
     (none_or_one (self w) -> none_or_one (self w'))).

(** Steps and scripts to run the runner on. *)
Module scripts.

Definition step_of (act : string) : scenario_runner.step string :=
  scenario_runner.mkStep (Some act) None None None None None None.

Definition start_step (tag : string) : scenario_runner.step string :=
  scenario_runner.mkStep (Some "start_transaction") None (Some 1) None
    (Some tag) None None.

Definition meter_step (vals : list string) : scenario_runner.step string :=
  scenario_runner.mkStep (Some "meter_values") None (Some 1) None None
    (Some vals) None.

Definition status_step (name : string) : scenario_runner.step string :=
  scenario_runner.mkStep (Some "status") None (Some 1) (Some name) None
    None None.

(** boot, Preparing, start, two samples, stop, Available, exit. *)
Definition session : list (scenario_runner.step string) :=
  [step_of "boot"; status_step "Preparing"; start_step "TAG1";
   meter_step ["10.0"; "20.0"]; step_of "stop_transaction";
   status_step "Available"; step_of "exit"].

End scripts.

(* ===================================================================== *)
(** ** Properties *)
(* ===================================================================== *)

Lemma calls_of_app (a b : list event) :
  calls_of (a ++ b) = calls_of a ++ calls_of b.
Proof.
  induction a as [|e a IH]; [reflexivity|].
  destruct e; simpl; rewrite IH; reflexivity.
Qed.

Lemma tasks_of_app (a b : list event) :
  tasks_of (a ++ b) = tasks_of a ++ tasks_of b.
Proof.
  induction a as [|e a IH]; [reflexivity|].
  destruct e; simpl; rewrite IH; reflexivity.
Qed.

Lemma sleeps_of_app (a b : list event) :
  sleeps_of (a ++ b) = sleeps_of a ++ sleeps_of b.
Proof.
  induction a as [|e a IH]; [reflexivity|].
  destruct e; simpl; rewrite IH; reflexivity.
Qed.

Create Rewrite HintDb trace_simpl.
#[local] Hint Rewrite calls_of_app tasks_of_app sleeps_of_app : trace_simpl.
#[local] Hint Rewrite <- app_assoc : trace_simpl.
#[local] Hint Rewrite app_nil_r : trace_simpl.

(** Unfold the monad down to plain functions on worlds. *)
(** Bring the Calls of an extended trace into the form [old ++ new]. *)
Ltac calls_norm :=
  simpl; rewrite ?calls_of_app; simpl;
  rewrite ?app_nil_r; rewrite <- ?app_assoc; simpl.

Ltac unfold_monad :=
  cbv [bind ret raise emit gets modify logging_info logging_warning print
       asyncio_sleep asyncio_create_task utcnow self_call
       getattr_status getattr_interval getattr_transaction_id].

Example scenario_lifecycle :
  let E := peers.csms in
  let w0 := peers.cp_idle in
  let w1 := snd (client.send_start_transaction E 1 "TAG1" w0) in
  let w2 := snd (client.send_meter_values E string peers.str_id 1 ["10.0"; "20.0"] w1) in
  let w3 := snd (client.send_stop_transaction E 100 w2) in
  client.current_transaction_id (self w1) = Some 1 /\
  List.length (calls_of (trace w2)) = 3%nat /\
  client.current_transaction_id (self w3) = None /\
  List.length (calls_of (trace w3)) = 4%nat.
Proof. repeat split. Qed.

(* --------------------------------------------------------------------- *)
(** *** StopTransaction *)
(* --------------------------------------------------------------------- *)

(** C3.  [send_stop_transaction] without a current transaction sends no
    Call, logs the "skipping" warning and returns with the charge point
    untouched.  With a current transaction [tid] it sends exactly one
    Call, a StopTransaction carrying [tid] and the caller's [meter_stop];
    when that Call returns the current transaction is cleared to [None]
    (when it raises, the exception escapes and the charge point is left
    as it was). *)
Theorem send_stop_transaction_spec (E : env) (meter_stop : Z)
  (w : world client.ChargePoint) :
  let (r, w') := client.send_stop_transaction E meter_stop w in
  match client.current_transaction_id (self w) with
  | None =>
      r = Ok tt /\ self w' = self w /\
      calls_of (trace w') = calls_of (trace w) /\
      trace w' = trace w ++
        [Log WARNING "%s: no active transaction, skipping StopTransaction"]
  | Some tid =>
      let req := call.StopTransaction tid meter_stop (now E (trace w)) in
      calls_of (trace w') = calls_of (trace w) ++ [req] /\
      match transport E
              (trace w ++
                 [Log INFO
                    "%s: sending StopTransaction(transaction_id=%s, meter_stop=%s)"])
              req with
      | Returns _ =>
          r = Ok tt /\ client.current_transaction_id (self w') = None
      | Raises e => r = Raised e /\ self w' = self w
      end
  end.
Proof.
  destruct w as [cp t]; destruct cp as [i hb cur].
  unfold client.send_stop_transaction; unfold_monad; simpl.
  destruct cur as [tid|]; simpl.
  - destruct (transport E _ _) as [resp|e]; simpl;
      autorewrite with trace_simpl; simpl; auto.
  - autorewrite with trace_simpl; simpl; autorewrite with trace_simpl; auto.
Qed.

(** C4 (as amended).  With a current transaction, when the StopTransaction
    Call of the first invocation returns, two invocations in a row behave
    as follows: the first clears the current transaction, the second sends
    no Call, returns, and leaves the charge point as the first left it. *)
Theorem send_stop_transaction_twice (E : env) (m1 m2 tid : Z)
  (resp : option call_result.response) (w : world client.ChargePoint) :
  client.current_transaction_id (self w) = Some tid ->
  transport E
    (trace w ++
       [Log INFO "%s: sending StopTransaction(transaction_id=%s, meter_stop=%s)"])
    (call.StopTransaction tid m1 (now E (trace w))) = Returns resp ->
  let (r1, w1) := client.send_stop_transaction E m1 w in
  let (r2, w2) := client.send_stop_transaction E m2 w1 in
  r1 = Ok tt /\ client.current_transaction_id (self w1) = None /\
  calls_of (trace w1) =
    calls_of (trace w) ++ [call.StopTransaction tid m1 (now E (trace w))] /\
  r2 = Ok tt /\ calls_of (trace w2) = calls_of (trace w1) /\ self w2 = self w1.
Proof.
  destruct w as [cp t]; destruct cp as [i hb cur]; simpl.
  intros Hcur Hresp; subst cur.
  unfold client.send_stop_transaction; unfold_monad; simpl.
  rewrite Hresp; simpl.
  autorewrite with trace_simpl; simpl; autorewrite with trace_simpl.
  repeat split.
Qed.

Lemma send_stop_transaction_twice_witness :
  let (r1, w1) := client.send_stop_transaction peers.csms 100 (peers.cp_charging 1) in
  let (r2, w2) := client.send_stop_transaction peers.csms 100 w1 in
  r1 = Ok tt /\ client.current_transaction_id (self w1) = None /\
  calls_of (trace w1) =
    calls_of (trace (peers.cp_charging 1)) ++
      [call.StopTransaction 1 100 (now peers.csms (trace (peers.cp_charging 1)))] /\
  r2 = Ok tt /\ calls_of (trace w2) = calls_of (trace w1) /\ self w2 = self w1.
Proof.
  apply (send_stop_transaction_twice peers.csms 100 100 1
           (Some (call_result.StopTransaction
                    (mkIdTagInfo AuthorizationStatus.accepted None None)))
           (peers.cp_charging 1)); reflexivity.
Defined.

(** C4, as stated, fails when the first Call gets no answer: the timeout
    escapes before the assignment, the current transaction is still set,
    and a second invocation sends a second StopTransaction Call. *)
Lemma send_stop_transaction_twice_counterexample :
  let w := peers.cp_charging 1 in
  let (r1, w1) := client.send_stop_transaction peers.silent 100 w in
  let (r2, w2) := client.send_stop_transaction peers.silent 100 w1 in
  r1 = Raised TimeoutError /\
  client.current_transaction_id (self w1) = Some 1 /\
  List.length (calls_of (trace w1)) = 1%nat /\
  List.length (calls_of (trace w2)) = 2%nat.
Proof. repeat split. Qed.

(* --------------------------------------------------------------------- *)
(** *** StartTransaction *)
(* --------------------------------------------------------------------- *)

(** C8.  Whenever the StartTransaction Call returns a StartTransaction
    response, [send_start_transaction] stores the response's transaction
    id as the current transaction: whatever transaction was current
    before is overwritten, and the status in the response's idTagInfo is
    not looked at. *)
Theorem send_start_transaction_stores_id (E : env) (connector_id : Z)
  (id_tag : string) (tid : Z) (info : IdTagInfo)
  (w : world client.ChargePoint) :
  transport E
    (trace w ++
       [Log INFO "%s: sending StartTransaction(connector=%s, idTag=%s)"])
    (call.StartTransaction connector_id id_tag 0 (now E (trace w)))
  = Returns (Some (call_result.StartTransaction tid info)) ->
  let (r, w') := client.send_start_transaction E connector_id id_tag w in
  r = Ok (Some (call_result.StartTransaction tid info)) /\
  client.current_transaction_id (self w') = Some tid /\
  client.heartbeat_interval (self w') = client.heartbeat_interval (self w) /\
  client.id (self w') = client.id (self w).
Proof.
  destruct w as [cp t]; simpl; intros Hresp.
  unfold client.send_start_transaction; unfold_monad; simpl.
  rewrite Hresp; simpl. repeat split.
Qed.

(** A transaction 7 is current, the central system answers with id 9 and
    authorization status Blocked: 9 is stored. *)
Lemma send_start_transaction_stores_id_witness :
  let (r, w') :=
    client.send_start_transaction
      (peers.start_with 9 AuthorizationStatus.blocked) 1 "TAG1"
      (peers.cp_charging 7) in
  r = Ok (Some (call_result.StartTransaction 9
                  (mkIdTagInfo AuthorizationStatus.blocked None None))) /\
  client.current_transaction_id (self w') = Some 9 /\
  client.heartbeat_interval (self w') =
    client.heartbeat_interval (self (peers.cp_charging 7)) /\
  client.id (self w') = client.id (self (peers.cp_charging 7)).
Proof.
  apply (send_start_transaction_stores_id
           (peers.start_with 9 AuthorizationStatus.blocked) 1 "TAG1" 9
           (mkIdTagInfo AuthorizationStatus.blocked None None)
           (peers.cp_charging 7)).
  reflexivity.
Defined.

(* --------------------------------------------------------------------- *)
(** *** StatusNotification *)
(* --------------------------------------------------------------------- *)

Lemma existsb_eqb_In (s : string) (l : list string) :
  existsb (String.eqb s) l = true <-> In s l.
Proof.
  rewrite existsb_exists; split.
  - intros [x [Hin Heq]]. apply String.eqb_eq in Heq. subst; assumption.
  - intros Hin. exists s. split; [assumption | apply String.eqb_refl].
Qed.

(** C10 (as amended).  [send_status_notification] always makes exactly
    one Call, a StatusNotification for the given connector with error
    code NoError.  Its status is the [ChargePointStatus] member of that
    name when the given string is a member name, and the string itself,
    unchanged, otherwise.  The operation makes no check of the string of
    its own: it ends as its Call ends, returning when the Call returns
    and raising what the Call raises. *)
Theorem send_status_notification_status (E : env) (members : list string)
  (connector_id : Z) (status : string) (w : world client.ChargePoint) :
  let (r, w') := client.send_status_notification E members connector_id status w in
  exists st : status_arg,
    let req := call.StatusNotification connector_id
                 ChargePointErrorCode.no_error st (now E (trace w)) in
    calls_of (trace w') = calls_of (trace w) ++ [req] /\
    (In status members -> st = EnumMember status) /\
    (~ In status members -> st = RawString status) /\
    self w' = self w /\
    match transport E
            (trace w ++
               [Log INFO "%s: sending StatusNotification %s on connector %s"])
            req with
    | Returns _ => r = Ok tt
    | Raises e => r = Raised e
    end.
Proof.
  destruct w as [cp t].
  unfold client.send_status_notification; unfold_monad; simpl.
  set (st := if existsb (String.eqb status) members
             then EnumMember status else RawString status).
  assert (Hst : (In status members -> st = EnumMember status) /\
                (~ In status members -> st = RawString status)).
  { subst st. destruct (existsb (String.eqb status) members) eqn:Hmem.
    - apply existsb_eqb_In in Hmem. split; [reflexivity | contradiction].
    - split; [|reflexivity].
      intros Hin. apply existsb_eqb_In in Hin. congruence. }
  destruct Hst as [Hyes Hno].
  destruct (transport E (t ++ _) _) as [resp|e] eqn:Hcall; simpl;
    exists st; cbv zeta; rewrite Hcall;
    autorewrite with trace_simpl; simpl; repeat split; auto.
Qed.

Example send_status_notification_member :
  calls_of (trace (snd (client.send_status_notification peers.csms
                          peers.member_names 1 "charging" peers.cp_idle)))
  = [call.StatusNotification 1 ChargePointErrorCode.no_error
       (EnumMember "charging") "2024-01-01T00:00:00+00:00"].
Proof. reflexivity. Qed.

(** C10, as stated, fails on "never rejects": with the library's check in
    [self.call], a status string that is neither a member name nor a
    status value is passed on as it is and refused there, and the
    operation ends in FormatViolationError. *)
Lemma send_status_notification_status_counterexample :
  let (r, w') :=
    client.send_status_notification peers.csms peers.member_names 1 "bogus"
      peers.cp_idle in
  r = Raised FormatViolationError /\
  calls_of (trace w') =
    [call.StatusNotification 1 ChargePointErrorCode.no_error
       (RawString "bogus") "2024-01-01T00:00:00+00:00"] /\
  r <> Ok tt.
Proof. repeat split. discriminate. Qed.

Example send_status_notification_other :
  calls_of (trace (snd (client.send_status_notification peers.csms
                          peers.member_names 1 "Charging" peers.cp_idle)))
  = [call.StatusNotification 1 ChargePointErrorCode.no_error
       (RawString "Charging") "2024-01-01T00:00:00+00:00"].
Proof. reflexivity. Qed.

(* --------------------------------------------------------------------- *)
(** *** MeterValues *)
(* --------------------------------------------------------------------- *)

Section MeterValuesLoop.

Variable E : env.
Variable sample : Type.
Variable str : sample -> string.
Variable connector_id : Z.

Local Notation loop :=
  (client.send_meter_values_loop E sample str connector_id).

(** One round of the loop. *)
Lemma send_meter_values_loop_cons (v : sample) (rest : list sample)
  (w : world client.ChargePoint) :
  let req := call.MeterValues connector_id
               (client.current_transaction_id (self w))
               [mkMeterValue (now E (trace w)) [mkSampledValue (str v)]] in
  let h := trace w ++ [Log INFO "%s: sending MeterValues value=%s"] in
  loop (v :: rest) w =
  match transport E h req with
  | Returns _ =>
      loop rest
        (World (self w)
           (h ++ [Call req; Log INFO "%s: MeterValues response: %s"]))
  | Raises e => (Raised e, World (self w) (h ++ [Call req]))
  end.
Proof.
  destruct w as [cp t]. simpl.
  unfold_monad; simpl.
  destruct (transport E _ _) as [resp|e]; simpl;
    autorewrite with trace_simpl; reflexivity.
Qed.

Lemma send_meter_values_loop_nil (w : world client.ChargePoint) :
  loop [] w = (Ok tt, w).
Proof. reflexivity. Qed.

(** The loop leaves the charge point alone and sends the Calls of a
    prefix of the samples, in order. *)
Lemma send_meter_values_loop_prefix (values : list sample) :
  forall w : world client.ChargePoint,
    let (r, w') := loop values w in
    self w' = self w /\
    exists (k : nat) (new : list call.request),
      (k <= List.length values)%nat /\
      calls_of (trace w') = calls_of (trace w) ++ new /\
      map meter_values_core new =
        map (sample_core str connector_id
               (client.current_transaction_id (self w)))
            (firstn k values) /\
      (r = Ok tt -> k = List.length values) /\
      (always_returns E -> r = Ok tt).
Proof.
  induction values as [|v rest IH]; intros w.
  - rewrite send_meter_values_loop_nil. split; [reflexivity|].
    exists 0%nat, []. autorewrite with trace_simpl. repeat split; auto.
  - rewrite send_meter_values_loop_cons.
    set (req := call.MeterValues _ _ _).
    set (h := trace w ++ _).
    destruct (transport E h req) as [resp|e] eqn:Hcall.
    + specialize (IH (World (self w)
                        (h ++ [Call req;
                               Log INFO "%s: MeterValues response: %s"]))).
      destruct (loop rest _) as [r w'].
      destruct IH as [Hself [k [new [Hk [Hcalls [Hcore [Hok Hall]]]]]]].
      simpl in Hself, Hcalls, Hcore.
      split; [assumption|].
      exists (S k), (req :: new). simpl.
      repeat split.
      * lia.
      * rewrite Hcalls. subst h. autorewrite with trace_simpl. reflexivity.
      * rewrite Hcore. reflexivity.
      * intros Hr. rewrite (Hok Hr). reflexivity.
      * assumption.
    + split; [reflexivity|].
      exists 1%nat, [req]. simpl.
      repeat split.
      * lia.
      * subst h. autorewrite with trace_simpl. reflexivity.
      * discriminate.
      * intros Hall. destruct (Hall h req) as [resp Hresp]. congruence.
Qed.

(** When the peer lets [k] Calls return and the next one raise, the
    loop ends in that exception after the Calls of the first [k + 1]
    samples. *)
Lemma send_meter_values_loop_raise (values : list sample) :
  forall (w : world client.ChargePoint) (k : nat) (e : exn),
    (k < List.length values)%nat ->
    returns_next E (List.length (calls_of (trace w))) k ->
    raises_at E (List.length (calls_of (trace w)) + k) e ->
    let (r, w') := loop values w in
    r = Raised e /\
    exists new : list call.request,
      calls_of (trace w') = calls_of (trace w) ++ new /\
      map meter_values_core new =
        map (sample_core str connector_id
               (client.current_transaction_id (self w)))
            (firstn (S k) values).
Proof.
  unfold returns_next, raises_at.
  induction values as [|v rest IH]; intros w k e Hk Hret Hraise.
  - simpl in Hk. lia.
  - rewrite send_meter_values_loop_cons.
    set (req := call.MeterValues _ _ _).
    set (h := trace w ++ _).
    assert (Hlen : List.length (calls_of h) = List.length (calls_of (trace w))).
    { unfold h. rewrite calls_of_app. simpl.
      rewrite app_nil_r. reflexivity. }
    destruct k as [|k].
    + rewrite (Hraise h req) by lia.
      split; [reflexivity|].
      exists [req]. split.
      * subst h. calls_norm. reflexivity.
      * reflexivity.
    + destruct (Hret h req) as [resp Hresp]; [lia|].
      rewrite Hresp.
      set (w2 := World (self w) _).
      assert (Hlen2 : List.length (calls_of (trace w2)) =
                      S (List.length (calls_of (trace w)))).
      { unfold w2, h. simpl. rewrite !calls_of_app. simpl.
        rewrite !length_app. simpl. lia. }
      specialize (IH w2 k e).
      destruct (loop rest w2) as [r w'].
      destruct IH as [Hr [new [Hcalls Hcore]]].
      * simpl in Hk. lia.
      * intros h' req' Hh'. apply Hret. lia.
      * intros h' req' Hh'. apply Hraise. lia.
      * split; [assumption|].
        exists (req :: new). split.
        -- rewrite Hcalls. subst w2 h. calls_norm. reflexivity.
        -- simpl in Hcore. simpl. rewrite Hcore. reflexivity.
Qed.

End MeterValuesLoop.

Lemma meter_values_core_inv (req : call.request) (c : Z) (tid : option Z)
  (vs : list (list string)) :
  meter_values_core req = Some (c, tid, vs) ->
  exists mvs, req = call.MeterValues c tid mvs.
Proof.
  destruct req; simpl; try discriminate.
  intros H. injection H as -> -> _. eexists; reflexivity.
Qed.

Lemma map_core_carries {sample : Type} (str : sample -> string) (c : Z)
  (tid : option Z) (vs : list sample) :
  forall new : list call.request,
    map meter_values_core new = map (sample_core str c tid) vs ->
    Forall (fun req => exists mvs, req = call.MeterValues c tid mvs) new.
Proof.
  induction vs as [|v vs IH]; intros [|req new] H; simpl in H;
    try discriminate; constructor.
  - injection H as Hreq _. eapply meter_values_core_inv; exact Hreq.
  - injection H as _ Hrest. apply IH; assumption.
Qed.

Lemma call_outcomes_app (E : env) (x y : list event) :
  forall before : list event,
    call_outcomes E before (x ++ y) =
    call_outcomes E before x ++ call_outcomes E (before ++ x) y.
Proof.
  induction x as [|e x IH]; intros before.
  - simpl. rewrite app_nil_r. reflexivity.
  - destruct e; simpl; rewrite IH, <- app_assoc; reflexivity.
Qed.

(** The loop with the outcome of every Call it made: all returned and
    the loop went through the samples, or all but the last returned, the
    last raised, and the loop ended there. *)
Lemma send_meter_values_loop_outcomes (E : env) (sample : Type)
  (str : sample -> string) (connector_id : Z) (values : list sample) :
  forall w : world client.ChargePoint,
    let (r, w') :=
      client.send_meter_values_loop E sample str connector_id values w in
    exists (k : nat) (evs : list event),
      trace w' = trace w ++ evs /\
      (k <= List.length values)%nat /\
      map meter_values_core (calls_of evs) =
        map (sample_core str connector_id
               (client.current_transaction_id (self w)))
            (firstn k values) /\
      ((r = Ok tt /\ k = List.length values /\
        Forall returned (call_outcomes E (trace w) evs))
       \/
       (exists (e : exn) (rs : list (option call_result.response)),
          r = Raised e /\
          call_outcomes E (trace w) evs = map Returns rs ++ [Raises e])).
Proof.
  induction values as [|v rest IH]; intros w.
  - simpl. unfold ret. exists 0%nat, []. rewrite app_nil_r.
    split; [reflexivity|]. split; [lia|]. split; [reflexivity|].
    left. repeat split. constructor.
  - rewrite send_meter_values_loop_cons. cbv zeta.
    set (req := call.MeterValues _ _ _).
    set (sending := Log INFO "%s: sending MeterValues value=%s").
    set (response := Log INFO "%s: MeterValues response: %s").
    destruct (transport E (trace w ++ [sending]) req) as [resp|e] eqn:Hcall.
    + specialize (IH (World (self w)
                        ((trace w ++ [sending]) ++ [Call req; response]))).
      destruct (client.send_meter_values_loop E sample str connector_id rest _)
        as [r w'].
      destruct IH as [k [evs [Htrace [Hk [Hcore Hout]]]]].
      cbn [self trace] in Htrace, Hcore, Hout.
      exists (S k), ([sending; Call req; response] ++ evs).
      split; [rewrite Htrace, <- !app_assoc; reflexivity|].
      split; [simpl; lia|].
      split; [simpl; rewrite Hcore; reflexivity|].
      assert (Hco : call_outcomes E (trace w)
                      ([sending; Call req; response] ++ evs) =
                    Returns resp ::
                    call_outcomes E
                      ((trace w ++ [sending]) ++ [Call req; response]) evs).
      { rewrite call_outcomes_app. simpl. rewrite Hcall.
        rewrite <- !app_assoc. reflexivity. }
      rewrite Hco.
      destruct Hout as [[Hr [Hkn Hall]] | [e [rs [Hr Hrs]]]].
      * left. split; [exact Hr|]. split; [simpl; rewrite Hkn; reflexivity|].
        constructor; [exists resp; reflexivity | exact Hall].
      * right. exists e, (resp :: rs). split; [exact Hr|].
        rewrite Hrs. reflexivity.
    + exists 1%nat, [sending; Call req].
      split; [simpl; rewrite <- app_assoc; reflexivity|].
      split; [simpl; lia|]. split; [reflexivity|].
      right. exists e, []. split; [reflexivity|].
      simpl. rewrite Hcall. reflexivity.
Qed.

(** C2 (as amended).  [send_meter_values] without a current transaction
    sends no Call, logs the "skipping" warning and returns.  With a
    current transaction it sends MeterValues Calls one after the other,
    one per sample in the order of the sequence, each carrying the
    current transaction id, up to and including the first Call that
    raises: [k] Calls for the first [k] of the [n] samples.  Either
    every one of these Calls returned, the operation returns, and
    [k = n] (exactly [n] Calls, none for an empty sequence); or all of
    them but the last returned, the last one raised, and the operation
    ends in what it raised.  Whenever no Call raises it returns. *)
Theorem send_meter_values_calls (E : env) (sample : Type)
  (str : sample -> string) (connector_id : Z) (values : list sample)
  (w : world client.ChargePoint) :
  let (r, w') := client.send_meter_values E sample str connector_id values w in
  match client.current_transaction_id (self w) with
  | None =>
      r = Ok tt /\ calls_of (trace w') = calls_of (trace w) /\
      trace w' = trace w ++
        [Log WARNING "%s: no active transaction, skipping MeterValues"]
  | Some tid =>
      exists (k : nat) (evs : list event),
        (k <= List.length values)%nat /\
        trace w' = trace w ++ evs /\
        calls_of (trace w') = calls_of (trace w) ++ calls_of evs /\
        List.length (calls_of evs) = k /\
        map meter_values_core (calls_of evs) =
          map (sample_core str connector_id (Some tid)) (firstn k values) /\
        ((r = Ok tt /\ k = List.length values /\
          Forall returned (call_outcomes E (trace w) evs))
         \/
         (exists (e : exn) (rs : list (option call_result.response)),
            r = Raised e /\
            call_outcomes E (trace w) evs = map Returns rs ++ [Raises e])) /\
        (r = Ok tt -> k = List.length values) /\
        (always_returns E -> r = Ok tt)
  end.
Proof.
  unfold client.send_meter_values, bind, gets.
  destruct (client.current_transaction_id (self w)) as [tid|] eqn:Hcur.
  - pose proof (send_meter_values_loop_prefix E sample str connector_id
                  values w) as H.
    pose proof (send_meter_values_loop_outcomes E sample str connector_id
                  values w) as H'.
    cbv zeta in H.
    destruct (client.send_meter_values_loop _ _ _ _ _ _) as [r w'].
    destruct H as [_ [_ [_ [_ [_ [_ [_ Hall]]]]]]].
    destruct H' as [k [evs [Htrace [Hk [Hcore Hout]]]]].
    rewrite Hcur in Hcore.
    exists k, evs.
    split; [exact Hk|]. split; [exact Htrace|].
    split; [rewrite Htrace, calls_of_app; reflexivity|].
    split.
    { apply (f_equal (@List.length _)) in Hcore.
      rewrite !length_map, length_firstn in Hcore. lia. }
    split; [exact Hcore|]. split; [exact Hout|].
    split; [|exact Hall].
    intros Hr. destruct Hout as [[_ [Hkn _]] | [e [rs [Hr' _]]]];
      [exact Hkn | congruence].
  - unfold_monad; simpl. autorewrite with trace_simpl. simpl.
    autorewrite with trace_simpl. repeat split.
Qed.

(** C2, as stated, fails when a Call gets no answer: with a current
    transaction and two samples, one Call is sent, not two. *)
Lemma send_meter_values_calls_counterexample :
  let values := ["10.0"; "20.0"] in
  let (r, w') :=
    client.send_meter_values peers.silent string peers.str_id 1 values
      (peers.cp_charging 1) in
  r = Raised TimeoutError /\
  List.length (calls_of (trace w')) = 1%nat /\
  List.length (calls_of (trace w')) <> List.length values.
Proof. repeat split. simpl. discriminate. Qed.

(** C9.  [send_meter_values] leaves the charge point as it found it, in
    every run: [current_transaction_id] and [heartbeat_interval] are
    the same after as before, and every Call it sends is a MeterValues
    Call for the given connector carrying that one transaction id. *)
Theorem send_meter_values_frame (E : env) (sample : Type)
  (str : sample -> string) (connector_id : Z) (values : list sample)
  (w : world client.ChargePoint) :
  let (r, w') := client.send_meter_values E sample str connector_id values w in
  self w' = self w /\
  client.current_transaction_id (self w') = client.current_transaction_id (self w) /\
  client.heartbeat_interval (self w') = client.heartbeat_interval (self w) /\
  exists new : list call.request,
    calls_of (trace w') = calls_of (trace w) ++ new /\
    Forall (fun req => exists mvs,
              req = call.MeterValues connector_id
                      (client.current_transaction_id (self w)) mvs) new.
Proof.
  unfold client.send_meter_values, bind, gets.
  destruct (client.current_transaction_id (self w)) as [tid|] eqn:Hcur.
  - pose proof (send_meter_values_loop_prefix E sample str connector_id
                  values w) as H.
    cbv zeta in H.
    destruct (client.send_meter_values_loop _ _ _ _ _ _) as [r w'].
    destruct H as [Hself [k [new [Hk [Hcalls [Hcore _]]]]]].
    rewrite Hself. do 3 (split; [congruence|]).
    exists new. split; [assumption|].
    rewrite Hcur in Hcore. eapply map_core_carries; exact Hcore.
  - unfold_monad; simpl. do 3 (split; [congruence|]).
    exists []. calls_norm. split; [reflexivity | constructor].
Qed.




(* --------------------------------------------------------------------- *)
(** *** Boot and heartbeat *)
(* --------------------------------------------------------------------- *)

Section HeartbeatLoop.

Variable E : env.

(** One round of the loop. *)
Lemma heartbeat_loop_S (fuel : nat) (w : world client.ChargePoint) :
  let h := trace w ++
             [Sleep (client.heartbeat_interval (self w));
              Log INFO "%s: sending Heartbeat"] in
  client.heartbeat_loop E (S fuel) w =
  match transport E h call.Heartbeat with
  | Returns _ =>
      client.heartbeat_loop E fuel
        (World (self w)
           (h ++ [Call call.Heartbeat;
                  Log INFO "%s: Heartbeat response: %s"]))
  | Raises e => (Raised e, World (self w) (h ++ [Call call.Heartbeat]))
  end.
Proof.
  destruct w as [cp t]. simpl. unfold_monad; simpl.
  autorewrite with trace_simpl. simpl.
  destruct (transport E _ _) as [resp|e]; simpl;
    autorewrite with trace_simpl; reflexivity.
Qed.

(** Every sleep of the loop lasts [heartbeat_interval], as read from the
    charge point; a round starts with one. *)
Lemma heartbeat_loop_sleeps (fuel : nat) :
  forall w : world client.ChargePoint,
    exists n : nat,
      (n <= fuel)%nat /\ (0 < fuel -> 0 < n)%nat /\
      sleeps_of (trace (snd (client.heartbeat_loop E fuel w))) =
        sleeps_of (trace w) ++ repeat (client.heartbeat_interval (self w)) n.
Proof.
  induction fuel as [|fuel IH]; intros w.
  - exists 0%nat. simpl. rewrite app_nil_r. repeat split; lia.
  - rewrite heartbeat_loop_S. cbv zeta.
    destruct (transport E _ _) as [resp|e].
    + destruct (IH (World (self w)
                      ((trace w ++
                          [Sleep (client.heartbeat_interval (self w));
                           Log INFO "%s: sending Heartbeat"]) ++
                         [Call call.Heartbeat;
                          Log INFO "%s: Heartbeat response: %s"])))
        as [n [Hn [_ Hs]]].
      exists (S n). split; [lia|]. split; [lia|].
      rewrite Hs. simpl. rewrite !sleeps_of_app. simpl.
      rewrite app_nil_r, <- app_assoc. reflexivity.
    + exists 1%nat. split; [lia|]. split; [lia|].
      simpl. rewrite !sleeps_of_app. simpl.
      rewrite app_nil_r. reflexivity.
Qed.

End HeartbeatLoop.

Lemma calls_of_heartbeat_rounds (d : Z) (n : nat) :
  calls_of (heartbeat_rounds d n) = repeat call.Heartbeat n.
Proof.
  induction n as [|n IH]; [reflexivity|]. simpl. rewrite IH. reflexivity.
Qed.

(** The trace of the loop, round by round. *)
Lemma heartbeat_loop_rounds (E : env) (fuel : nat) :
  forall (w : world client.ChargePoint) (k : nat),
    returns_next E (List.length (calls_of (trace w))) k ->
    let (r, w') := client.heartbeat_loop E fuel w in
    self w' = self w /\
    ((fuel <= k)%nat ->
     r = Unfinished /\
     trace w' =
       trace w ++ heartbeat_rounds (client.heartbeat_interval (self w)) fuel) /\
    (forall e : exn,
        (k < fuel)%nat ->
        raises_at E (List.length (calls_of (trace w)) + k) e ->
        r = Raised e /\
        trace w' =
          trace w ++ heartbeat_rounds (client.heartbeat_interval (self w)) k
                  ++ heartbeat_last_round (client.heartbeat_interval (self w))).
Proof.
  unfold returns_next, raises_at.
  induction fuel as [|fuel IH]; intros w k Hret.
  - simpl. split; [reflexivity|]. split.
    + intros _. rewrite app_nil_r. split; reflexivity.
    + intros e Hk. lia.
  - rewrite heartbeat_loop_S. cbv zeta.
    set (h := trace w ++ _).
    assert (Hlen : List.length (calls_of h) = List.length (calls_of (trace w))).
    { unfold h. rewrite calls_of_app. simpl. rewrite app_nil_r. reflexivity. }
    destruct (transport E h call.Heartbeat) as [resp|e0] eqn:Hcall.
    + set (w2 := World (self w) _).
      assert (Hlen2 : List.length (calls_of (trace w2)) =
                      S (List.length (calls_of (trace w)))).
      { unfold w2, h. simpl. rewrite !calls_of_app. simpl.
        rewrite !length_app. simpl. lia. }
      assert (Htrace2 : forall tl,
                 trace w2 ++ tl =
                 trace w ++
                   [Sleep (client.heartbeat_interval (self w));
                    Log INFO "%s: sending Heartbeat"; Call call.Heartbeat;
                    Log INFO "%s: Heartbeat response: %s"] ++ tl).
      { intros tl. unfold w2, h. cbn [trace]. rewrite <- !app_assoc.
        reflexivity. }
      specialize (IH w2 (pred k)).
      destruct (client.heartbeat_loop E fuel w2) as [r w'].
      destruct IH as [Hself [Hgo Hstop]].
      { intros h' req' Hh'. apply Hret. rewrite Hlen2 in Hh'. lia. }
      split; [exact Hself|]. split.
      * intros Hk. destruct Hgo as [Hr Hc]; [lia|].
        split; [assumption|].
        rewrite Hc, Htrace2. reflexivity.
      * intros e Hk Hraise.
        destruct k as [|k].
        -- rewrite (Hraise h call.Heartbeat) in Hcall by lia. discriminate.
        -- destruct (Hstop e) as [Hr Hc].
           ++ simpl. lia.
           ++ intros h' req' Hh'. apply Hraise.
              rewrite Hlen2 in Hh'. simpl in Hh'. lia.
           ++ split; [assumption|].
              rewrite Hc, Htrace2. reflexivity.
    + split; [reflexivity|]. split.
      * intros Hk. destruct (Hret h call.Heartbeat) as [resp Hresp]; [lia|].
        congruence.
      * intros e Hk Hraise.
        destruct k as [|k].
        -- rewrite (Hraise h call.Heartbeat) in Hcall by lia.
           injection Hcall as <-. split; [reflexivity|].
           unfold h, heartbeat_last_round. cbn [trace heartbeat_rounds app].
           rewrite <- app_assoc. reflexivity.
        -- destruct (Hret h call.Heartbeat) as [resp Hresp]; [lia|].
           congruence.
Qed.


Lemma willing_answer_returns (req : call.request) :
  exists resp, peers.willing_answer req = Returns resp.
Proof. eexists; reflexivity. Qed.



(** C7 (as amended).  [send_boot_notification] creates the heartbeat task
    exactly when its Call returns a BootNotification response whose
    status is Accepted; it then records the interval of that response,
    and every sleep of the heartbeat loop lasts exactly that interval, as
    the server gave it: no minimum is applied.  In every other case no
    task is created and the charge point is left as it was. *)
Theorem send_boot_notification_heartbeat (E : env)
  (w : world client.ChargePoint) :
  let (r, w') := client.send_boot_notification E w in
  match transport E (trace w ++ [Log INFO "%s: sending BootNotification"])
          (call.BootNotification "MyTestModel" "MyStartup") with
  | Returns (Some (call_result.BootNotification _ i RegistrationStatus.accepted)) =>
      r = Ok tt /\
      tasks_of (trace w') = tasks_of (trace w) ++ [heartbeat_loop_task] /\
      client.heartbeat_interval (self w') = i /\
      forall fuel : nat,
      exists n : nat,
        (n <= fuel)%nat /\ (0 < fuel -> 0 < n)%nat /\
        sleeps_of (trace (snd (client.heartbeat_loop E fuel w'))) =
          sleeps_of (trace w') ++ repeat i n
  | _ =>
      tasks_of (trace w') = tasks_of (trace w) /\ self w' = self w
  end.
Proof.
  destruct w as [cp t]; destruct cp as [i0 hb cur].
  unfold client.send_boot_notification; unfold_monad; simpl.
  destruct (transport E _ _) as [[resp|]|e]; simpl.
  - destruct resp as [ct i st| | | | | | ]; simpl;
      try (rewrite !tasks_of_app; simpl; rewrite !app_nil_r;
           split; reflexivity).
    destruct st; simpl;
      try (rewrite !tasks_of_app; simpl; rewrite !app_nil_r;
           split; reflexivity).
    split; [reflexivity|]. split.
    + rewrite !tasks_of_app. simpl. rewrite !app_nil_r. reflexivity.
    + split; [reflexivity|]. intros fuel.
      match goal with
      | |- context [client.heartbeat_loop E fuel ?w1] =>
          destruct (heartbeat_loop_sleeps E fuel w1) as [n [Hn [Hpos Hs]]]
      end.
      exists n. split; [assumption|]. split; [assumption|]. exact Hs.
  - rewrite !tasks_of_app; simpl; rewrite !app_nil_r. split; reflexivity.
  - rewrite !tasks_of_app; simpl; rewrite !app_nil_r. split; reflexivity.
Qed.

(** C7, as stated, fails on the minimum: the server accepts with interval
    0, the client records 0, and the heartbeat loop sleeps 0 seconds. *)
Lemma send_boot_notification_heartbeat_counterexample :
  let E := peers.boot_with RegistrationStatus.accepted 0 in
  let (r, w') := client.send_boot_notification E peers.cp_idle in
  r = Ok tt /\
  tasks_of (trace w') = [heartbeat_loop_task] /\
  client.heartbeat_interval (self w') = 0 /\
  sleeps_of (trace (snd (client.heartbeat_loop E 1 w'))) = [0] /\
  ~ (1 <= client.heartbeat_interval (self w')).
Proof. repeat split. simpl. lia. Qed.

Example send_boot_notification_accepted :
  let E := peers.csms in
  let (r, w') := client.send_boot_notification E peers.cp_idle in
  r = Ok tt /\
  tasks_of (trace w') = [heartbeat_loop_task] /\
  client.heartbeat_interval (self w') = 10 /\
  sleeps_of (trace (snd (client.heartbeat_loop E 3 w'))) = [10; 10; 10].
Proof. repeat split. Qed.

Example send_boot_notification_rejected :
  let E := peers.boot_with RegistrationStatus.rejected 30 in
  let (r, w') := client.send_boot_notification E peers.cp_idle in
  r = Ok tt /\
  tasks_of (trace w') = [] /\
  client.heartbeat_interval (self w') = 10.
Proof. repeat split. Qed.

(* --------------------------------------------------------------------- *)
(** *** The central system's StartTransaction handler *)
(* --------------------------------------------------------------------- *)

(** Whatever the request and whoever sends it, the handler answers with
    transaction id 1. *)
Lemma on_start_transaction_id (E : env) (connector_id : Z) (id_tag : string)
  (meter_start : Z) (ts : string) (extra : server.kwargs)
  (w : world server.CentralSystemChargePoint) :
  fst (server.on_start_transaction connector_id id_tag meter_start ts extra w)
  = Ok (call_result.StartTransaction 1
          (mkIdTagInfo AuthorizationStatus.accepted None None)).
Proof. reflexivity. Qed.

(** C1.  The code at the input on which it departs from the claim: two
    charge points, CP_1 and CP_2, each start a transaction at the same
    server; both are answered with transaction id 1, so the ids handed
    out are not distinct. *)
Theorem start_transaction_ids_repeat :
  let ts := "2024-01-01T00:00:00+00:00" in
  let answers :=
    server.serve peers.csms
      [("CP_1", [call.StartTransaction 1 "TAG1" 0 ts]);
       ("CP_2", [call.StartTransaction 1 "TAG2" 0 ts])] in
  server.transaction_ids answers = [1; 1] /\
  ~ NoDup (server.transaction_ids answers).
Proof.
  split; [reflexivity|].
  simpl. intros H. inversion H as [|x l Hnotin _]; subst.
  apply Hnotin. left. reflexivity.
Qed.

(* ===================================================================== *)
(** ** Further properties of the client *)
(* ===================================================================== *)

(** What the client operations compute, one equation each. *)

Lemma send_boot_notification_eq (E : env) (w : world client.ChargePoint) :
  let req := call.BootNotification "MyTestModel" "MyStartup" in
  let h := trace w ++ [Log INFO "%s: sending BootNotification"] in
  let h' := h ++ [Call req; Log INFO "%s: BootNotification response: %s"] in
  client.send_boot_notification E w =
  match transport E h req with
  | Returns (Some (call_result.BootNotification _ i st)) =>
      if RegistrationStatus.eqb st RegistrationStatus.accepted then
        (Ok tt,
         World (client.set_heartbeat_interval i (self w))
           (h' ++ [Print "✓ Connected to central system.";
                   CreateTask heartbeat_loop_task]))
      else
        (Ok tt, World (self w) (h' ++ [Print "/!\ BootNotification not accepted:"]))
  | Returns _ => (Raised AttributeError, World (self w) h')
  | Raises e => (Raised e, World (self w) (h ++ [Call req]))
  end.
Proof.
  destruct w as [cp t]. simpl.
  unfold client.send_boot_notification; unfold_monad; simpl.
  destruct (transport E _ _) as [[resp|]|e]; simpl;
    autorewrite with trace_simpl; simpl; try reflexivity.
  destruct resp as [ct i st| | | | | | ]; simpl; try reflexivity.
  destruct st; simpl; autorewrite with trace_simpl; reflexivity.
Qed.

Lemma send_authorize_eq (E : env) (id_tag : string)
  (w : world client.ChargePoint) :
  let req := call.Authorize id_tag in
  let h := trace w ++ [Log INFO "%s: sending Authorize for idTag=%s"] in
  client.send_authorize E id_tag w =
  match transport E h req with
  | Returns resp =>
      (Ok resp,
       World (self w) (h ++ [Call req; Log INFO "%s: Authorize response: %s"]))
  | Raises e => (Raised e, World (self w) (h ++ [Call req]))
  end.
Proof.
  destruct w as [cp t]. simpl.
  unfold client.send_authorize; unfold_monad; simpl.
  destruct (transport E _ _) as [resp|e]; simpl;
    autorewrite with trace_simpl; reflexivity.
Qed.

Lemma send_status_notification_eq (E : env) (members : list string)
  (connector_id : Z) (status : string) (w : world client.ChargePoint) :
  let st := if existsb (String.eqb status) members
            then EnumMember status else RawString status in
  let req := call.StatusNotification connector_id
               ChargePointErrorCode.no_error st (now E (trace w)) in
  let h := trace w ++
             [Log INFO "%s: sending StatusNotification %s on connector %s"] in
  client.send_status_notification E members connector_id status w =
  match transport E h req with
  | Returns _ =>
      (Ok tt,
       World (self w)
         (h ++ [Call req; Log INFO "%s: StatusNotification response: %s"]))
  | Raises e => (Raised e, World (self w) (h ++ [Call req]))
  end.
Proof.
  destruct w as [cp t]. simpl.
  unfold client.send_status_notification; unfold_monad; simpl.
  destruct (transport E _ _) as [resp|e]; simpl;
    autorewrite with trace_simpl; reflexivity.
Qed.

Lemma send_start_transaction_eq (E : env) (connector_id : Z)
  (id_tag : string) (w : world client.ChargePoint) :
  let req := call.StartTransaction connector_id id_tag 0 (now E (trace w)) in
  let h := trace w ++
             [Log INFO "%s: sending StartTransaction(connector=%s, idTag=%s)"] in
  let h' := h ++ [Call req; Log INFO "%s: StartTransaction response: %s"] in
  client.send_start_transaction E connector_id id_tag w =
  match transport E h req with
  | Returns (Some (call_result.StartTransaction tid info)) =>
      (Ok (Some (call_result.StartTransaction tid info)),
       World (client.set_current_transaction_id (Some tid) (self w))
         (h' ++ [Log INFO "%s: stored transaction_id=%s"]))
  | Returns _ => (Raised AttributeError, World (self w) h')
  | Raises e => (Raised e, World (self w) (h ++ [Call req]))
  end.
Proof.
  destruct w as [cp t]. simpl.
  unfold client.send_start_transaction; unfold_monad; simpl.
  destruct (transport E _ _) as [[resp|]|e]; simpl;
    autorewrite with trace_simpl; simpl; try reflexivity.
  destruct resp; simpl; autorewrite with trace_simpl; reflexivity.
Qed.

Lemma send_stop_transaction_eq (E : env) (meter_stop : Z)
  (w : world client.ChargePoint) :
  client.send_stop_transaction E meter_stop w =
  match client.current_transaction_id (self w) with
  | None =>
      (Ok tt,
       World (self w)
         (trace w ++
            [Log WARNING "%s: no active transaction, skipping StopTransaction"]))
  | Some tid =>
      let req := call.StopTransaction tid meter_stop (now E (trace w)) in
      let h := trace w ++
                 [Log INFO
                    "%s: sending StopTransaction(transaction_id=%s, meter_stop=%s)"] in
      match transport E h req with
      | Returns _ =>
          (Ok tt,
           World (client.set_current_transaction_id None (self w))
             (h ++ [Call req; Log INFO "%s: StopTransaction response: %s"]))
      | Raises e => (Raised e, World (self w) (h ++ [Call req]))
      end
  end.
Proof.
  destruct w as [cp t]; destruct cp as [i hb cur]. simpl.
  unfold client.send_stop_transaction; unfold_monad; simpl.
  destruct cur as [tid|]; simpl; [|reflexivity].
  destruct (transport E _ _) as [resp|e]; simpl;
    autorewrite with trace_simpl; reflexivity.
Qed.

Lemma send_meter_values_eq (E : env) (sample : Type) (str : sample -> string)
  (connector_id : Z) (values : list sample) (w : world client.ChargePoint) :
  client.send_meter_values E sample str connector_id values w =
  match client.current_transaction_id (self w) with
  | None =>
      (Ok tt,
       World (self w)
         (trace w ++
            [Log WARNING "%s: no active transaction, skipping MeterValues"]))
  | Some _ => client.send_meter_values_loop E sample str connector_id values w
  end.
Proof.
  destruct w as [cp t]; destruct cp as [i hb cur]. simpl.
  unfold client.send_meter_values; unfold_monad; simpl.
  destruct cur; reflexivity.
Qed.

(** X1.  [send_authorize] sends exactly one Call, an Authorize carrying
    the given idTag, leaves the charge point as it was, and hands back
    what the Call gave: the returned object (also when that is [None])
    or the exception. *)
Theorem send_authorize_spec (E : env) (id_tag : string)
  (w : world client.ChargePoint) :
  let (r, w') := client.send_authorize E id_tag w in
  self w' = self w /\
  calls_of (trace w') = calls_of (trace w) ++ [call.Authorize id_tag] /\
  match transport E
          (trace w ++ [Log INFO "%s: sending Authorize for idTag=%s"])
          (call.Authorize id_tag) with
  | Returns resp => r = Ok resp
  | Raises e => r = Raised e
  end.
Proof.
  rewrite send_authorize_eq. cbv zeta.
  destruct (transport E _ _) as [resp|e]; simpl;
    (split; [reflexivity|]); (split; [calls_norm; reflexivity | reflexivity]).
Qed.

(** X2.  [send_start_transaction] sends exactly one Call in every run, a
    StartTransaction with meterStart 0, also while a transaction is
    current.  The current transaction changes only when the Call returns
    a StartTransaction response.  When the Call raises, its exception
    escapes; when it returns [None] or a response of another action, the
    read of [transaction_id] raises AttributeError; in both cases the
    charge point is left as it was, a transaction that was current stays
    current. *)
Theorem send_start_transaction_failure (E : env) (connector_id : Z)
  (id_tag : string) (w : world client.ChargePoint) :
  let req := call.StartTransaction connector_id id_tag 0 (now E (trace w)) in
  let (r, w') := client.send_start_transaction E connector_id id_tag w in
  calls_of (trace w') = calls_of (trace w) ++ [req] /\
  match transport E
          (trace w ++
             [Log INFO "%s: sending StartTransaction(connector=%s, idTag=%s)"])
          req with
  | Returns (Some (call_result.StartTransaction tid _)) =>
      client.current_transaction_id (self w') = Some tid
  | Returns _ => r = Raised AttributeError /\ self w' = self w
  | Raises e => r = Raised e /\ self w' = self w
  end.
Proof.
  rewrite send_start_transaction_eq. cbv zeta.
  destruct (transport E _ _) as [[resp|]|e]; simpl.
  - destruct resp; simpl; (split; [calls_norm; reflexivity|]);
      try (split; reflexivity); reflexivity.
  - split; [calls_norm; reflexivity|]. split; reflexivity.
  - split; [calls_norm; reflexivity|]. split; reflexivity.
Qed.

(** X3.  [send_boot_notification] sends exactly one Call in every run,
    the BootNotification with model MyTestModel and vendor MyStartup, and
    never touches the current transaction or the identity.  It returns
    for a BootNotification response of any status; when the Call raises
    its exception escapes, and when the Call returns [None] or a response
    of another action the read of [status] raises AttributeError. *)
Theorem send_boot_notification_frame (E : env) (w : world client.ChargePoint) :
  let req := call.BootNotification "MyTestModel" "MyStartup" in
  let (r, w') := client.send_boot_notification E w in
  calls_of (trace w') = calls_of (trace w) ++ [req] /\
  client.current_transaction_id (self w') = client.current_transaction_id (self w) /\
  client.id (self w') = client.id (self w) /\
  match transport E (trace w ++ [Log INFO "%s: sending BootNotification"]) req with
  | Returns (Some (call_result.BootNotification _ _ _)) => r = Ok tt
  | Returns _ => r = Raised AttributeError
  | Raises e => r = Raised e
  end.
Proof.
  rewrite send_boot_notification_eq. cbv zeta.
  destruct (transport E _ _) as [[resp|]|e]; simpl.
  - destruct resp as [ct i st| | | | | | ]; simpl;
      try (split; [calls_norm; reflexivity|]; repeat split).
    destruct (RegistrationStatus.eqb st RegistrationStatus.accepted); simpl;
      (split; [calls_norm; reflexivity|]); repeat split.
  - split; [calls_norm; reflexivity|]. repeat split.
  - split; [calls_norm; reflexivity|]. repeat split.
Qed.

(** X4.  The heartbeat loop has no normal exit: a run of it never ends
    by returning.  It leaves the charge point as it was, creates no task,
    and what it sends are Heartbeat Calls only, each one after a sleep of
    [heartbeat_interval]: as many sleeps as Calls, so also the first
    heartbeat waits one interval. *)
Theorem heartbeat_loop_shape (E : env) (fuel : nat) :
  forall w : world client.ChargePoint,
    let (r, w') := client.heartbeat_loop E fuel w in
    r <> Ok tt /\
    self w' = self w /\
    tasks_of (trace w') = tasks_of (trace w) /\
    exists m : nat,
      (m <= fuel)%nat /\
      calls_of (trace w') = calls_of (trace w) ++ repeat call.Heartbeat m /\
      sleeps_of (trace w') =
        sleeps_of (trace w) ++ repeat (client.heartbeat_interval (self w)) m.
Proof.
  induction fuel as [|fuel IH]; intros w.
  - simpl. split; [discriminate|]. do 2 (split; [reflexivity|]).
    exists 0%nat. simpl. rewrite !app_nil_r. repeat split. lia.
  - rewrite heartbeat_loop_S. cbv zeta.
    set (h := trace w ++ _).
    destruct (transport E h call.Heartbeat) as [resp|e].
    + set (w2 := World (self w) _).
      specialize (IH w2).
      destruct (client.heartbeat_loop E fuel w2) as [r w'].
      destruct IH as [Hr [Hself [Htasks [m [Hm [Hcalls Hsleeps]]]]]].
      split; [assumption|]. split; [assumption|]. split.
      * rewrite Htasks. unfold w2, h. simpl. rewrite !tasks_of_app. simpl.
        rewrite !app_nil_r. reflexivity.
      * exists (S m). split; [lia|]. split.
        -- rewrite Hcalls. unfold w2, h. calls_norm. reflexivity.
        -- rewrite Hsleeps. unfold w2, h. simpl. rewrite !sleeps_of_app. simpl.
           rewrite !app_nil_r, <- app_assoc. reflexivity.
    + split; [discriminate|]. split; [reflexivity|]. split.
      * unfold h. simpl. rewrite !tasks_of_app. simpl.
        rewrite !app_nil_r. reflexivity.
      * exists 1%nat. split; [lia|]. split.
        -- unfold h. calls_norm. reflexivity.
        -- unfold h. simpl. rewrite !sleeps_of_app. simpl.
           rewrite !app_nil_r. reflexivity.
Qed.

(** X5.  One transaction from start to stop.  With a peer whose Calls all
    return and whose answer to the StartTransaction carries id [tid]:
    the MeterValues Calls of all samples and the StopTransaction Call
    carry [tid], the Calls go out in the order start, samples, stop, the
    current transaction is cleared at the end, and meter values reported
    after the stop send nothing. *)
Theorem transaction_lifecycle (E : env) (sample : Type)
  (str : sample -> string) (connector_id : Z) (id_tag : string)
  (values : list sample) (meter_stop tid : Z) (info : IdTagInfo)
  (w : world client.ChargePoint) :
  always_returns E ->
  transport E
    (trace w ++
       [Log INFO "%s: sending StartTransaction(connector=%s, idTag=%s)"])
    (call.StartTransaction connector_id id_tag 0 (now E (trace w)))
  = Returns (Some (call_result.StartTransaction tid info)) ->
  let (r1, w1) := client.send_start_transaction E connector_id id_tag w in
  let (r2, w2) := client.send_meter_values E sample str connector_id values w1 in
  let (r3, w3) := client.send_stop_transaction E meter_stop w2 in
  let (r4, w4) := client.send_meter_values E sample str connector_id values w3 in
  r2 = Ok tt /\ r3 = Ok tt /\ r4 = Ok tt /\
  client.current_transaction_id (self w3) = None /\
  calls_of (trace w4) = calls_of (trace w3) /\
  exists (mvs : list call.request) (ts : string),
    calls_of (trace w3) =
      calls_of (trace w) ++
      [call.StartTransaction connector_id id_tag 0 (now E (trace w))] ++
      mvs ++ [call.StopTransaction tid meter_stop ts] /\
    map meter_values_core mvs =
      map (sample_core str connector_id (Some tid)) values.
Proof.
  intros Hall Hstart.
  rewrite send_start_transaction_eq. cbv zeta. rewrite Hstart.
  set (w1 := World _ _).
  assert (Hcur1 : client.current_transaction_id (self w1) = Some tid)
    by reflexivity.
  assert (Hcalls1 : calls_of (trace w1) =
                    calls_of (trace w) ++
                    [call.StartTransaction connector_id id_tag 0
                       (now E (trace w))]).
  { unfold w1. calls_norm. reflexivity. }
  rewrite send_meter_values_eq, Hcur1.
  pose proof (send_meter_values_loop_prefix E sample str connector_id
                values w1) as H.
  cbv zeta in H.
  destruct (client.send_meter_values_loop E sample str connector_id values w1)
    as [r2 w2].
  destruct H as [Hself2 [k [mvs [Hk [Hcalls2 [Hcore [Hok Hret]]]]]]].
  assert (Hr2 : r2 = Ok tt) by (apply Hret; exact Hall).
  rewrite (Hok Hr2), firstn_all, Hcur1 in Hcore.
  assert (Hcur2 : client.current_transaction_id (self w2) = Some tid)
    by (rewrite Hself2; exact Hcur1).
  rewrite send_stop_transaction_eq, Hcur2. cbv zeta.
  set (req3 := call.StopTransaction tid meter_stop (now E (trace w2))).
  set (h3 := trace w2 ++ _).
  destruct (Hall h3 req3) as [resp3 Hresp3]. rewrite Hresp3.
  rewrite send_meter_values_eq. simpl.
  split; [assumption|]. do 2 (split; [reflexivity|]).
  split; [reflexivity|]. split.
  - calls_norm. reflexivity.
  - exists mvs, (now E (trace w2)). split; [|assumption].
    unfold h3. calls_norm. rewrite Hcalls2, Hcalls1.
    rewrite <- !app_assoc. reflexivity.
Qed.

Lemma willing_always_returns : always_returns peers.willing.
Proof. intros h req. apply willing_answer_returns. Qed.

Lemma transaction_lifecycle_witness :
  let (r1, w1) := client.send_start_transaction peers.willing 1 "TAG1" peers.cp_idle in
  let (r2, w2) :=
    client.send_meter_values peers.willing string peers.str_id 1 ["10.0"; "20.0"] w1 in
  let (r3, w3) := client.send_stop_transaction peers.willing 100 w2 in
  let (r4, w4) :=
    client.send_meter_values peers.willing string peers.str_id 1 ["10.0"; "20.0"] w3 in
  r2 = Ok tt /\ r3 = Ok tt /\ r4 = Ok tt /\
  client.current_transaction_id (self w3) = None /\
  calls_of (trace w4) = calls_of (trace w3) /\
  exists (mvs : list call.request) (ts : string),
    calls_of (trace w3) =
      calls_of (trace peers.cp_idle) ++
      [call.StartTransaction 1 "TAG1" 0 (now peers.willing (trace peers.cp_idle))] ++
      mvs ++ [call.StopTransaction 1 100 ts] /\
    map meter_values_core mvs =
      map (sample_core peers.str_id 1 (Some 1)) ["10.0"; "20.0"].
Proof.
  apply (transaction_lifecycle peers.willing string peers.str_id 1 "TAG1"
           ["10.0"; "20.0"] 100 1
           (mkIdTagInfo AuthorizationStatus.accepted None None) peers.cp_idle).
  - exact willing_always_returns.
  - reflexivity.
Defined.

(* ===================================================================== *)
(** ** Further properties of the server *)
(* ===================================================================== *)

Lemma route_eq (E : env) (req : call.request)
  (w : world server.CentralSystemChargePoint) :
  if handled req then
    exists (resp : call_result.response) (fmt : string),
      server.route E req w =
        (Ok resp, World (self w) (trace w ++ [Log INFO fmt])) /\
      answers req resp = true /\
      grants resp = true /\
      (forall ct i st, resp = call_result.BootNotification ct i st -> i = 10) /\
      (forall tid info, resp = call_result.StartTransaction tid info -> tid = 1)
  else
    exists e : exn,
      server.route E req w = (Raised e, w) /\
      (schema_error req = Some e \/ schema_error req = None /\ e = TypeError).
Proof.
  destruct w as [cp t]. unfold handled, server.route.
  destruct (schema_error req) as [e|] eqn:Hs.
  - exists e. split; [reflexivity | left; reflexivity].
  - destruct req as [m v| |c ec st ts|tag|c tag ms ts|c [tid|] mv|tid ms ts];
      try (unfold_monad; simpl; eexists; eexists;
           (split; [reflexivity|]); (split; [reflexivity|]);
           (split; [reflexivity|]);
           (split; [intros ct0 i0 st0 H | intros tid' info H]);
           try discriminate H).
    + injection H as _ Hi _. symmetry; exact Hi.
    + injection H as Ht _. symmetry; exact Ht.
    + exists TypeError. split; [reflexivity | right; split; reflexivity].
Qed.

(** X6.  The handlers refuse nothing.  A Call whose payload passes the
    library's check (and, for MeterValues, names its transaction) gets
    from its handler the CallResult of the same action, every status in
    it Accepted, a boot with interval 10; handling it writes one log
    record, sends nothing and leaves the server's object as it was.  Any
    other Call ends in an exception, which the library answers with a
    CallError, before a handler has run: no handler has logged and
    nothing has changed.  The exception is the error of the check, or
    TypeError for a MeterValues without transactionId. *)
Theorem route_answers (E : env) (req : call.request)
  (w : world server.CentralSystemChargePoint) :
  if handled req then
    exists (resp : call_result.response) (fmt : string),
      server.route E req w =
        (Ok resp, World (self w) (trace w ++ [Log INFO fmt])) /\
      calls_of (trace w ++ [Log INFO fmt]) = calls_of (trace w) /\
      answers req resp = true /\
      grants resp = true /\
      (forall ct i st, resp = call_result.BootNotification ct i st -> i = 10)
  else
    exists e : exn,
      server.route E req w = (Raised e, w) /\
      (schema_error req = Some e \/ schema_error req = None /\ e = TypeError).
Proof.
  pose proof (route_eq E req w) as H.
  destruct (handled req); [|exact H].
  destruct H as [resp [fmt [Heq [Hans [Hgr [Hint _]]]]]].
  exists resp, fmt. split; [exact Heq|]. split.
  - rewrite calls_of_app. simpl. apply app_nil_r.
  - repeat split; assumption.
Qed.

Lemma route_cases (E : env) (req : call.request)
  (w : world server.CentralSystemChargePoint) :
  (handled req = true /\
   exists resp w',
     server.route E req w = (Ok resp, w') /\ self w' = self w /\
     answers req resp = true /\
     (forall tid info, resp = call_result.StartTransaction tid info -> tid = 1))
  \/
  (handled req = false /\ exists e, server.route E req w = (Raised e, w)).
Proof.
  pose proof (route_eq E req w) as H.
  destruct (handled req).
  - left. split; [reflexivity|].
    destruct H as [resp [fmt [Heq [Hans [_ [_ Hone]]]]]].
    exists resp, (World (self w) (trace w ++ [Log INFO fmt])).
    repeat split; assumption.
  - right. split; [reflexivity|].
    destruct H as [e [Heq _]]. exists e. exact Heq.
Qed.

(** X7.  On one connection every Call that reaches its handler gets its
    CallResult, and a Call that is refused does not end the connection:
    the CallResults are those of the handled Calls, one each, in the
    order of the Calls, each of its Call's action, and the object of the
    connection keeps the id it was created with. *)
Theorem serve_calls_answers_all (E : env) (reqs : list call.request) :
  forall w : world server.CentralSystemChargePoint,
    let (resps, w') := server.serve_calls E reqs w in
    Forall2 (fun req resp => answers req resp = true)
            (filter handled reqs) resps /\
    List.length resps = List.length (filter handled reqs) /\
    self w' = self w.
Proof.
  induction reqs as [|req rest IH]; intros w.
  - simpl. repeat split. constructor.
  - cbn [server.serve_calls filter].
    destruct (route_cases E req w)
      as [[Hh [resp [w1 [Heq [Hself [Hans _]]]]]] | [Hh [e Heq]]];
      rewrite Heq, Hh.
    + specialize (IH w1).
      destruct (server.serve_calls E rest w1) as [resps w'].
      destruct IH as [Hall [Hlen Hself']].
      split; [constructor; assumption|].
      split; [simpl; rewrite Hlen; reflexivity|].
      rewrite Hself'. exact Hself.
    + apply IH.
Qed.

Lemma serve_calls_transaction_ids (E : env) (reqs : list call.request) :
  forall w : world server.CentralSystemChargePoint,
    flat_map (fun r => match r with
                       | call_result.StartTransaction tid _ => [tid]
                       | _ => []
                       end)
             (fst (server.serve_calls E reqs w))
    = repeat 1
        (List.length
           (filter (fun req => is_start_transaction req && handled req) reqs)).
Proof.
  induction reqs as [|req rest IH]; intros w; [reflexivity|].
  cbn [server.serve_calls filter].
  destruct (route_cases E req w)
    as [[Hh [resp [w1 [Heq [_ [Hans Hone]]]]]] | [Hh [e Heq]]];
    rewrite Heq, Hh.
  - specialize (IH w1).
    destruct (server.serve_calls E rest w1) as [resps w'].
    cbn [fst] in IH |- *. cbn [flat_map]. rewrite IH.
    rewrite andb_true_r.
    destruct req; destruct resp; try discriminate Hans; try reflexivity.
    rewrite (Hone _ _ eq_refl). reflexivity.
  - rewrite andb_false_r. apply IH.
Qed.

(** X8.  Over the whole life of the server, and over all connections,
    every StartTransaction Call that passes the library's check is
    answered, and every transaction id handed out is 1: the ids are as
    many 1s as there were such Calls. *)
Theorem transaction_ids_all_one (E : env)
  (connections : list (string * list call.request)) :
  server.transaction_ids (server.serve E connections) =
  repeat 1
    (List.length
       (filter (fun req => is_start_transaction req && handled req)
               (flat_map snd connections))).
Proof.
  unfold server.transaction_ids, server.serve.
  induction connections as [|[cp reqs] rest IH]; [reflexivity|].
  cbn [map flat_map fst snd].
  rewrite IH. unfold server.on_connect.
  rewrite serve_calls_transaction_ids.
  rewrite filter_app, length_app, repeat_app. reflexivity.
Qed.

(* --------------------------------------------------------------------- *)
(** *** The id taken from the path *)
(* --------------------------------------------------------------------- *)

Lemma split_not_nil (sep : ascii) (s : string) : pystr.split sep s <> [].
Proof.
  destruct s as [|c s]; simpl; [discriminate|].
  destruct (Ascii.eqb c sep); [discriminate|].
  destruct (pystr.split sep s); discriminate.
Qed.

Lemma split_app_sep (sep : ascii) (a b : string) :
  pystr.split sep (String.append a (String sep b)) =
  pystr.split sep a ++ pystr.split sep b.
Proof.
  induction a as [|c a IH]; simpl.
  - rewrite Ascii.eqb_refl. reflexivity.
  - destruct (Ascii.eqb c sep); rewrite IH; [reflexivity|].
    destruct (pystr.split sep a) as [|seg segs] eqn:Hs; [|reflexivity].
    exfalso. exact (split_not_nil sep a Hs).
Qed.

Lemma split_no_sep (sep : ascii) (s : string) :
  ~ In sep (list_ascii_of_string s) -> pystr.split sep s = [s].
Proof.
  induction s as [|c s IH]; intros Hno; [reflexivity|].
  simpl in Hno |- *.
  destruct (Ascii.eqb_spec c sep) as [->|Hne].
  - exfalso. apply Hno. left. reflexivity.
  - rewrite IH; [reflexivity|]. intros Hin. apply Hno. right. exact Hin.
Qed.

(** X9.  The id the client puts at the end of the address comes back on
    the server: for a path that ends in a slash followed by an id
    without a slash, [on_connect] derives exactly that id, whatever
    precedes it. *)
Theorem charge_point_id_of_path_round_trip (prefix cp_id : string) :
  ~ In "/"%char (list_ascii_of_string cp_id) ->
  charge_point_id_of_path
    (String.append prefix (String.append "/" cp_id)) = cp_id.
Proof.
  intros Hno. unfold charge_point_id_of_path.
  change (String.append "/" cp_id) with (String "/"%char cp_id).
  rewrite split_app_sep, (split_no_sep _ _ Hno).
  apply last_last.
Qed.

Lemma charge_point_id_of_path_round_trip_witness :
  charge_point_id_of_path (String.append "" (String.append "/" "CP_1")) = "CP_1".
Proof.
  apply (charge_point_id_of_path_round_trip "" "CP_1").
  simpl. intros [H|[H|[H|[H|[]]]]]; discriminate H.
Defined.

Lemma last_split_cons (sep c : ascii) (s : string) :
  last (pystr.split sep (String c s)) EmptyString =
  if Ascii.eqb c sep then last (pystr.split sep s) EmptyString
  else match pystr.split sep s with
       | [seg] => String c seg
       | _ => last (pystr.split sep s) EmptyString
       end.
Proof.
  simpl. destruct (Ascii.eqb c sep).
  - destruct (pystr.split sep s) as [|seg segs] eqn:Hs; [|reflexivity].
    exfalso. exact (split_not_nil sep s Hs).
  - destruct (pystr.split sep s) as [|seg [|seg' segs]] eqn:Hs;
      try reflexivity.
    exfalso. exact (split_not_nil sep s Hs).
Qed.

Lemma split_single (sep : ascii) (s seg : string) :
  pystr.split sep s = [seg] ->
  seg = s /\ ~ In sep (list_ascii_of_string s).
Proof.
  revert seg. induction s as [|c s IH]; intros seg H; simpl in H.
  - injection H as <-. split; [reflexivity | intros []].
  - destruct (Ascii.eqb_spec c sep) as [->|Hne].
    + destruct (pystr.split sep s) as [|x xs] eqn:Hs; [|discriminate H].
      exfalso. exact (split_not_nil sep s Hs).
    + destruct (pystr.split sep s) as [|x [|y ys]] eqn:Hs; try discriminate H.
      * injection H as <-.
        exfalso. exact (split_not_nil sep s Hs).
      * injection H as <-.
        destruct (IH x eq_refl) as [-> Hno].
        split; [reflexivity|].
        simpl. intros [Heq|Hin]; [congruence | exact (Hno Hin)].
Qed.

(** X10.  Whatever the path, the id [on_connect] derives from it holds no
    slash and is the end of the path: the path is the id, or something
    ending in a slash followed by the id.  So an id that itself holds a
    slash does not come back whole, and a path ending in a slash gives
    the empty id. *)
Theorem charge_point_id_of_path_suffix (path : string) :
  let cp_id := charge_point_id_of_path path in
  ~ In "/"%char (list_ascii_of_string cp_id) /\
  (path = cp_id \/
   exists pre, path = String.append pre (String "/"%char cp_id)).
Proof.
  unfold charge_point_id_of_path. cbv zeta.
  induction path as [|c path [IHno IHsuf]].
  - simpl. split; [intros [] | left; reflexivity].
  - rewrite last_split_cons.
    destruct (Ascii.eqb_spec c "/"%char) as [->|Hne].
    + split; [exact IHno|]. right.
      destruct IHsuf as [Heq | [pre Hpre]].
      * exists EmptyString. simpl. rewrite <- Heq. reflexivity.
      * exists (String "/"%char pre). simpl. rewrite <- Hpre. reflexivity.
    + destruct (pystr.split "/"%char path) as [|seg [|seg' segs]] eqn:Hs.
      * exfalso. exact (split_not_nil _ _ Hs).
      * destruct (split_single _ _ _ Hs) as [-> Hno].
        split; [|left; reflexivity].
        simpl. intros [Heq|Hin]; [congruence | exact (Hno Hin)].
      * split; [exact IHno|]. right.
        destruct IHsuf as [Heq | [pre Hpre]].
        -- exfalso.
           assert (Hone : pystr.split "/"%char path = [path]).
           { apply split_no_sep. rewrite Heq at 1. exact IHno. }
           rewrite Hs in Hone. discriminate Hone.
        -- exists (String c pre). cbn [String.append]. f_equal. exact Hpre.
Qed.

(* ===================================================================== *)
(** ** Properties of the scenario runner *)
(* ===================================================================== *)

Section ScenarioRunner.

Variable E : env.
Variable sample : Type.
Variable str : sample -> string.
Variable members : list string.

Local Abbreviation run_step := (scenario_runner.run_step E sample str members).
Local Abbreviation run_script := (scenario_runner.run_script E sample str members).
Local Abbreviation step := (scenario_runner.step sample).

Lemma run_script_cons (st : step) (rest : list step)
  (w : world client.ChargePoint) :
  run_script (st :: rest) w =
  match run_step st w with
  | (Ok scenario_runner.Next, w') => run_script rest w'
  | (Ok scenario_runner.Break, w') => (Ok tt, w')
  | (Raised e, w') => (Raised e, w')
  | (Unfinished, w') => (Unfinished, w')
  end.
Proof.
  cbn [scenario_runner.run_script]. unfold bind.
  destruct (run_step st w) as [[[|]| |] w']; reflexivity.
Qed.

Lemma run_step_exit (st : step) (w : world client.ChargePoint) :
  scenario_runner.action st = Some "exit" ->
  run_step st w =
  (Ok scenario_runner.Break,
   World (self w) (trace w ++ [Log INFO "Scenario: exit requested, stopping."])).
Proof.
  intros Hact. unfold scenario_runner.run_step. rewrite Hact. reflexivity.
Qed.

(** X11.  An exit step ends the script: the steps after it are never
    run, whatever they are. *)
Theorem run_script_exit (pre post : list step) (st : step) :
  scenario_runner.action st = Some "exit" ->
  forall w : world client.ChargePoint,
    run_script (pre ++ st :: post) w = run_script (pre ++ [st]) w.
Proof.
  intros Hact. induction pre as [|a pre IH]; intros w.
  - simpl app. rewrite !run_script_cons, (run_step_exit st w Hact).
    reflexivity.
  - simpl app. rewrite !run_script_cons.
    destruct (run_step a w) as [[[|]| |] w']; try reflexivity.
    apply IH.
Qed.

(** X12.  A failure ends the script: when a run of some steps ends in an
    exception, the same run with further steps behind them ends in that
    exception and in the same state, none of the further steps is
    started. *)
Theorem run_script_abort (pre post : list step) (e : exn) :
  forall w w' : world client.ChargePoint,
    run_script pre w = (Raised e, w') ->
    run_script (pre ++ post) w = (Raised e, w').
Proof.
  induction pre as [|a pre IH]; intros w w' H.
  - simpl in H. unfold ret in H. discriminate H.
  - simpl app. rewrite run_script_cons in H |- *.
    destruct (run_step a w) as [[[|]| |] w1]; try discriminate H.
    + apply IH. exact H.
    + exact H.
Qed.

Lemma eqb_known_false (act a : string) :
  ~ In act known_actions -> In a known_actions -> String.eqb act a = false.
Proof.
  intros Hno Hin. apply String.eqb_neq. intros ->. exact (Hno Hin).
Qed.

(** X13.  A step whose action is none of the eight the runner knows is
    skipped with a warning: nothing is sent, the charge point is left as
    it was, and the script goes on with the next step. *)
Theorem run_script_unknown_action (st : step) (rest : list step)
  (act : string) (w : world client.ChargePoint) :
  scenario_runner.action st = Some act ->
  ~ In act known_actions ->
  run_script (st :: rest) w =
  run_script rest
    (World (self w)
       (trace w ++ [Log WARNING "Unknown action in scenario: %s"])).
Proof.
  intros Hact Hno. rewrite run_script_cons.
  unfold scenario_runner.run_step. rewrite Hact.
  cbv [scenario_runner.subscript bind ret].
  rewrite !(eqb_known_false act _ Hno) by (simpl; tauto).
  reflexivity.
Qed.

(** X14.  A step that lacks a key the runner reads with [step[...]]
    (its action, the status of a status step, the idTag of an authorize
    or start_transaction step) raises KeyError before anything is sent
    or logged, and the script ends there. *)
Theorem run_script_missing_key (st : step) (rest : list step)
  (w : world client.ChargePoint) :
  has_required_keys st = false ->
  exists key : string,
    run_script (st :: rest) w = (Raised (scenario_runner.KeyError key), w).
Proof.
  unfold has_required_keys. intros H. rewrite run_script_cons.
  unfold scenario_runner.run_step.
  destruct (scenario_runner.action st) as [act|]; [|exists "action"; reflexivity].
  cbv [scenario_runner.subscript bind ret].
  assert (Hne : forall a b, a <> b -> String.eqb act a = true ->
                            String.eqb act b = false).
  { intros a b Hab Ha. apply String.eqb_eq in Ha. subst act.
    apply String.eqb_neq. exact Hab. }
  destruct (String.eqb act "status") eqn:Hst.
  - rewrite (Hne "status" "boot"), (Hne "status" "wait") by
      (assumption || discriminate).
    destruct (scenario_runner.status st); [discriminate H|].
    exists "status". destruct w; reflexivity.
  - destruct (String.eqb act "authorize") eqn:Hau.
    + rewrite (Hne "authorize" "boot"), (Hne "authorize" "wait") by
        (assumption || discriminate).
      destruct (scenario_runner.idTag st); [discriminate H|].
      exists "idTag". destruct w; reflexivity.
    + destruct (String.eqb act "start_transaction") eqn:Hsx;
        [|discriminate H].
      rewrite (Hne "start_transaction" "boot"),
        (Hne "start_transaction" "wait") by (assumption || discriminate).
      destruct (scenario_runner.idTag st); [discriminate H|].
      exists "idTag". destruct w; reflexivity.
Qed.

(** The defaults of the optional keys: a step runs as the same
    step with connectorId 1, values [], meterStop 100 and seconds 1
    written in wherever it leaves them out. *)
Lemma run_step_defaults (st : step) :
  run_step (with_defaults st) = run_step st.
Proof. destruct st; reflexivity. Qed.

(** Served by the central system: what a returned answer is, and which
    Calls get one. *)
Lemma served_by_returned (h : list event) (req : call.request)
  (resp : call_result.response) :
  served_by E ->
  transport E h req = Returns (Some resp) ->
  answers req resp = true /\
  (forall tid info, resp = call_result.StartTransaction tid info -> tid = 1).
Proof.
  intros Hs H. destruct (Hs h req) as [E' [ws Heq]].
  rewrite Heq in H. unfold library_outcome in H.
  destruct (schema_error req); [discriminate H|].
  destruct (route_cases E' req ws)
    as [[_ [resp' [w' [Hr [_ [Hans Hone]]]]]] | [_ [e Hr]]];
    rewrite Hr in H; cbn [fst] in H; [|discriminate H].
  injection H as ->. split; assumption.
Qed.

Lemma served_by_handled (h : list event) (req : call.request) :
  served_by E -> handled req = true ->
  exists resp : call_result.response,
    transport E h req = Returns (Some resp) /\ answers req resp = true.
Proof.
  intros Hs Hh. destruct (Hs h req) as [E' [ws Heq]].
  assert (Hse : schema_error req = None).
  { unfold handled in Hh. destruct (schema_error req); [discriminate Hh|].
    reflexivity. }
  destruct (route_cases E' req ws)
    as [[_ [resp [w' [Hr [_ [Hans _]]]]]] | [Hno _]]; [|congruence].
  exists resp. split; [|exact Hans].
  rewrite Heq. unfold library_outcome. rewrite Hse, Hr. reflexivity.
Qed.

Lemma served_by_passes (h : list event) (req : call.request) :
  served_by E -> schema_error req = None ->
  exists resp, transport E h req = Returns resp.
Proof.
  intros Hs Hse. destruct (Hs h req) as [E' [ws Heq]].
  rewrite Heq. unfold library_outcome. rewrite Hse.
  destruct (fst (server.route E' req ws)); eexists; reflexivity.
Qed.

Lemma served_by_boot (h : list event) :
  served_by E ->
  exists ct : string,
    transport E h (call.BootNotification "MyTestModel" "MyStartup") =
    Returns (Some (call_result.BootNotification ct 10
                     RegistrationStatus.accepted)).
Proof.
  intros Hs.
  destruct (Hs h (call.BootNotification "MyTestModel" "MyStartup"))
    as [E' [ws Heq]].
  rewrite Heq. eexists. reflexivity.
Qed.

Lemma send_boot_notification_keeps (w : world client.ChargePoint) :
  keeps E false true w (client.send_boot_notification E w).
Proof.
  unfold keeps. rewrite send_boot_notification_eq. cbv zeta.
  set (req := call.BootNotification _ _). set (h := trace w ++ _).
  pose proof (served_by_boot h) as Hgood. fold req in Hgood.
  destruct (transport E h req) as [[resp|]|e] eqn:Hcall.
  - destruct resp as [ct i st| | | | | | ];
      try (simpl; split; [reflexivity|]; exists [req];
           split; [unfold h; calls_norm; reflexivity|];
           split; [intros Hc _; split; [exact Hc | repeat constructor]|];
           intros Hs; destruct (Hgood Hs) as [ct' Hct]; discriminate Hct).
    destruct (RegistrationStatus.eqb st RegistrationStatus.accepted);
      simpl; (split; [reflexivity|]); exists [req];
      (split; [unfold h; calls_norm; reflexivity|]);
      (split; [intros Hc _; split; [exact Hc | repeat constructor]|]);
      intros _; (split; [intros _; exists tt; reflexivity|]);
      intros Hinv; exact Hinv.
  - simpl; split; [reflexivity|]; exists [req];
      split; [unfold h; calls_norm; reflexivity|];
      split; [intros Hc _; split; [exact Hc | repeat constructor]|].
    intros Hs. destruct (Hgood Hs) as [ct' Hct]. discriminate Hct.
  - simpl; split; [reflexivity|]; exists [req];
      split; [unfold h; calls_norm; reflexivity|];
      split; [intros Hc _; split; [exact Hc | repeat constructor]|].
    intros Hs. destruct (Hgood Hs) as [ct' Hct]. discriminate Hct.
Qed.

Lemma send_status_notification_keeps (connector_id : Z) (status : string)
  (w : world client.ChargePoint) :
  keeps E false
    (existsb (String.eqb status) members
     || existsb (String.eqb status) status_values) w
    (client.send_status_notification E members connector_id status w).
Proof.
  unfold keeps. rewrite send_status_notification_eq. cbv zeta.
  set (req := call.StatusNotification _ _ _ _). set (h := trace w ++ _).
  assert (Hh : existsb (String.eqb status) members
               || existsb (String.eqb status) status_values = true ->
               handled req = true).
  { unfold req, handled. simpl.
    destruct (existsb (String.eqb status) members); simpl; [reflexivity|].
    intros ->. reflexivity. }
  destruct (transport E h req) as [resp|e] eqn:Hcall;
    simpl; (split; [reflexivity|]); exists [req];
    (split; [unfold h; calls_norm; reflexivity|]);
    (split; [intros Hc _; split; [exact Hc | repeat constructor]|]);
    intros Hs; (split; [|intros Hinv; exact Hinv]); intros Hok.
  - exists tt. reflexivity.
  - destruct (served_by_handled h req Hs (Hh Hok)) as [r' [Htr _]].
    rewrite Htr in Hcall. discriminate Hcall.
Qed.

Lemma send_authorize_keeps (id_tag : string) (w : world client.ChargePoint) :
  keeps E false (fits20 id_tag) w (client.send_authorize E id_tag w).
Proof.
  unfold keeps. rewrite send_authorize_eq. cbv zeta.
  set (req := call.Authorize _). set (h := trace w ++ _).
  assert (Hh : fits20 id_tag = true -> handled req = true).
  { unfold req, handled. simpl. intros ->. reflexivity. }
  destruct (transport E h req) as [resp|e] eqn:Hcall;
    simpl; (split; [reflexivity|]); exists [req];
    (split; [unfold h; calls_norm; reflexivity|]);
    (split; [intros Hc _; split; [exact Hc | repeat constructor]|]);
    intros Hs; (split; [|intros Hinv; exact Hinv]); intros Hok.
  - exists resp. reflexivity.
  - destruct (served_by_handled h req Hs (Hh Hok)) as [r' [Htr _]].
    rewrite Htr in Hcall. discriminate Hcall.
Qed.

Lemma send_start_transaction_keeps (connector_id : Z) (id_tag : string)
  (w : world client.ChargePoint) :
  keeps E true (fits20 id_tag) w
    (client.send_start_transaction E connector_id id_tag w).
Proof.
  unfold keeps. rewrite send_start_transaction_eq. cbv zeta.
  set (req := call.StartTransaction _ _ _ _). set (h := trace w ++ _).
  assert (Hh : fits20 id_tag = true -> handled req = true).
  { unfold req, handled. simpl. intros ->. reflexivity. }
  destruct (transport E h req) as [[resp|]|e] eqn:Hcall.
  - destruct resp as [ | | | |tid info| | ];
      try (simpl; split; [reflexivity|]; exists [req];
           split; [unfold h; calls_norm; reflexivity|];
           split; [intros _ Hst; discriminate Hst|];
           intros Hs; split; [|intros Hinv; exact Hinv]; intros Hok;
           destruct (served_by_handled h req Hs (Hh Hok)) as [r' [Htr Hans]];
           rewrite Htr in Hcall; injection Hcall as ->;
           discriminate Hans).
    simpl. split; [reflexivity|]. exists [req].
    split; [unfold h; calls_norm; reflexivity|].
    split; [intros _ Hst; discriminate Hst|].
    intros Hs. split; [intros _; eexists; reflexivity|].
    intros _.
    destruct (served_by_returned h req _ Hs Hcall) as [_ Hone].
    right. simpl. rewrite (Hone tid info eq_refl). reflexivity.
  - simpl. split; [reflexivity|]. exists [req].
    split; [unfold h; calls_norm; reflexivity|].
    split; [intros _ Hst; discriminate Hst|].
    intros Hs. split; [|intros Hinv; exact Hinv]. intros Hok.
    destruct (served_by_handled h req Hs (Hh Hok)) as [r' [Htr _]].
    rewrite Htr in Hcall. discriminate Hcall.
  - simpl. split; [reflexivity|]. exists [req].
    split; [unfold h; calls_norm; reflexivity|].
    split; [intros _ Hst; discriminate Hst|].
    intros Hs. split; [|intros Hinv; exact Hinv]. intros Hok.
    destruct (served_by_handled h req Hs (Hh Hok)) as [r' [Htr _]].
    rewrite Htr in Hcall. discriminate Hcall.
Qed.

Lemma send_stop_transaction_keeps (meter_stop : Z)
  (w : world client.ChargePoint) :
  keeps E false true w (client.send_stop_transaction E meter_stop w).
Proof.
  unfold keeps. rewrite send_stop_transaction_eq.
  destruct (client.current_transaction_id (self w)) as [tid|] eqn:Hcur.
  - cbv zeta.
    set (req := call.StopTransaction _ _ _). set (h := trace w ++ _).
    destruct (transport E h req) as [resp|e] eqn:Hcall;
      simpl; (split; [reflexivity|]); exists [req];
      (split; [unfold h; calls_norm; reflexivity|]);
      (split; [intros Hc; discriminate Hc|]);
      intros Hs.
    + split; [intros _; exists tt; reflexivity|].
      intros _. left. reflexivity.
    + destruct (served_by_handled h req Hs eq_refl) as [r' [Htr _]].
      rewrite Htr in Hcall. discriminate Hcall.
  - simpl. split; [reflexivity|]. exists [].
    split; [calls_norm; reflexivity|].
    split; [intros _ _; split; [exact Hcur | constructor]|].
    intros _. split; [intros _; exists tt; reflexivity|].
    intros _. left. exact Hcur.
Qed.

(** When every MeterValues Call returns, the loop returns. *)
Lemma send_meter_values_loop_ok (connector_id : Z) (values : list sample) :
  (forall h c tid mv,
      exists resp, transport E h (call.MeterValues c tid mv) = Returns resp) ->
  forall w : world client.ChargePoint,
    fst (client.send_meter_values_loop E sample str connector_id values w)
    = Ok tt.
Proof.
  intros Hret. induction values as [|v rest IH]; intros w; [reflexivity|].
  rewrite send_meter_values_loop_cons. cbv zeta.
  destruct (Hret (trace w ++ [Log INFO "%s: sending MeterValues value=%s"])
              connector_id (client.current_transaction_id (self w))
              [mkMeterValue (now E (trace w)) [mkSampledValue (str v)]])
    as [resp Hresp].
  rewrite Hresp. apply IH.
Qed.

Lemma send_meter_values_keeps (connector_id : Z) (values : list sample)
  (w : world client.ChargePoint) :
  keeps E false true w
    (client.send_meter_values E sample str connector_id values w).
Proof.
  unfold keeps. rewrite send_meter_values_eq.
  destruct (client.current_transaction_id (self w)) as [tid|] eqn:Hcur.
  - pose proof (send_meter_values_loop_prefix E sample str connector_id
                  values w) as H.
    pose proof (fun Hret =>
                  send_meter_values_loop_ok connector_id values Hret w) as Hok.
    cbv zeta in H.
    destruct (client.send_meter_values_loop E sample str connector_id values w)
      as [r w'].
    destruct H as [Hself [k [new [_ [Hcalls _]]]]].
    split; [rewrite Hself; reflexivity|]. exists new.
    split; [exact Hcalls|].
    split; [intros Hc; discriminate Hc|].
    intros Hs. split.
    + intros _. exists tt. apply Hok.
      intros h c t mv. apply served_by_passes; [exact Hs | reflexivity].
    + unfold none_or_one. rewrite Hself. intros Hinv; exact Hinv.
  - simpl. split; [reflexivity|]. exists [].
    split; [calls_norm; reflexivity|].
    split; [intros _ _; split; [exact Hcur | constructor]|].
    intros _. split; [intros _; exists tt; reflexivity|].
    intros _. left. exact Hcur.
Qed.

Lemma keeps_weaken {A : Type} (s0 ok0 s ok : bool)
  (w : world client.ChargePoint) (out : result A * world client.ChargePoint) :
  (s = false -> s0 = false) -> (ok = true -> ok0 = true) ->
  keeps E s0 ok0 w out -> keeps E s ok w out.
Proof.
  unfold keeps. destruct out as [r w']. intros Hs Hok [Hid [new [Hc [Ha Hb]]]].
  split; [exact Hid|]. exists new. split; [exact Hc|]. split.
  - intros Hcur Hst. apply Ha; [exact Hcur | exact (Hs Hst)].
  - intros Hsv. destruct (Hb Hsv) as [Hr Hinv]. split; [|exact Hinv].
    intros Ht. apply Hr. exact (Hok Ht).
Qed.

Lemma keeps_then {A B : Type} (s ok : bool) (b : B)
  (m : M client.ChargePoint A) (w : world client.ChargePoint) :
  keeps E s ok w (m w) -> keeps E s ok w (bind m (fun _ => ret b) w).
Proof.
  unfold keeps, bind, ret. destruct (m w) as [[a|e|] w'];
    intros [Hid [new [Hc [Ha Hb]]]];
    (split; [exact Hid|]); exists new; (split; [exact Hc|]);
    (split; [exact Ha|]); intros Hsv; destruct (Hb Hsv) as [Hr Hinv];
    (split; [|exact Hinv]); intros Ht; destruct (Hr Ht) as [x Hx];
    try discriminate Hx.
  exists b. reflexivity.
Qed.

Lemma keeps_quiet {A : Type} (s ok : bool) (a : A) (evs : list event)
  (w : world client.ChargePoint) :
  calls_of evs = [] ->
  keeps E s ok w (Ok a, World (self w) (trace w ++ evs)).
Proof.
  intros Hq. unfold keeps. simpl. split; [reflexivity|]. exists [].
  split; [rewrite calls_of_app, Hq; reflexivity|].
  split; [intros Hc _; split; [exact Hc | constructor]|].
  intros _. split; [intros _; exists a; reflexivity | intros H; exact H].
Qed.

Lemma keeps_raised {A : Type} (s : bool) (e : exn)
  (w : world client.ChargePoint) :
  keeps (A := A) E s false w (Raised e, w).
Proof.
  unfold keeps. split; [reflexivity|]. exists [].
  split; [rewrite app_nil_r; reflexivity|].
  split; [intros Hc _; split; [exact Hc | constructor]|].
  intros _. split; [intros H; discriminate H | intros H; exact H].
Qed.

Lemma run_step_keeps (st : step) (w : world client.ChargePoint) :
  keeps E (is_start_step st)
    (has_required_keys st && payload_ok members st) w (run_step st w).
Proof.
  unfold is_start_step, has_required_keys, payload_ok,
    scenario_runner.run_step.
  destruct (scenario_runner.action st) as [act|];
    [|apply keeps_raised].
  cbv [scenario_runner.subscript].
  change (bind (ret act) ?k w) with (k act w). cbv beta.
  destruct (String.eqb act "boot") eqn:Hboot.
  { apply keeps_weaken with (s0 := false) (ok0 := true); auto.
    apply keeps_then, send_boot_notification_keeps. }
  destruct (String.eqb act "wait") eqn:Hwait.
  { apply keeps_weaken with (s0 := false) (ok0 := true); auto.
    match goal with
    | |- keeps _ _ _ _ ?out =>
        replace out with
          (Ok scenario_runner.Next,
           World (self w)
             (trace w ++
                [Log INFO "Scenario: waiting %s seconds";
                 Sleep (scenario_runner.get (scenario_runner.seconds st) 1)]))
          by (destruct w; unfold_monad; simpl;
              autorewrite with trace_simpl; reflexivity)
    end.
    apply keeps_quiet. reflexivity. }
  destruct (String.eqb act "status") eqn:Hstatus.
  { destruct (scenario_runner.status st) as [st_name|].
    - change (bind (ret st_name) ?k w) with (k st_name w). cbv beta.
      eapply keeps_weaken;
        [| |apply keeps_then, send_status_notification_keeps].
      + auto.
      + cbn [andb]. intros H; exact H.
    - apply keeps_raised. }
  destruct (String.eqb act "authorize") eqn:Hauth.
  { cbn [orb].
    destruct (scenario_runner.idTag st) as [id_tag|].
    - change (bind (ret id_tag) ?k w) with (k id_tag w). cbv beta.
      eapply keeps_weaken; [| |apply keeps_then, send_authorize_keeps].
      + auto.
      + cbn [andb]. intros H; exact H.
    - apply keeps_raised. }
  destruct (String.eqb act "start_transaction") eqn:Hstart.
  { cbn [orb].
    destruct (scenario_runner.idTag st) as [id_tag|].
    - change (bind (ret id_tag) ?k w) with (k id_tag w). cbv beta.
      eapply keeps_weaken;
        [| |apply keeps_then, send_start_transaction_keeps].
      + auto.
      + cbn [andb]. intros H; exact H.
    - apply keeps_raised. }
  cbn [orb andb].
  destruct (String.eqb act "meter_values") eqn:Hmeter.
  { apply keeps_then, send_meter_values_keeps. }
  destruct (String.eqb act "stop_transaction") eqn:Hstop.
  { apply keeps_then, send_stop_transaction_keeps. }
  destruct (String.eqb act "exit") eqn:Hexit.
  { apply (keeps_quiet false true scenario_runner.Break
             [Log INFO "Scenario: exit requested, stopping."] w).
    reflexivity. }
  apply (keeps_quiet false true scenario_runner.Next
           [Log WARNING "Unknown action in scenario: %s"] w).
  reflexivity.
Qed.

Lemma keeps_seq {A B : Type} (s1 ok1 s2 ok2 : bool)
  (w w1 : world client.ChargePoint) (a : A)
  (out2 : result B * world client.ChargePoint) :
  keeps E s1 ok1 w (Ok a, w1) ->
  keeps E s2 ok2 w1 out2 ->
  keeps E (s1 || s2) (ok1 && ok2) w out2.
Proof.
  unfold keeps. destruct out2 as [r2 w2].
  intros [Hid1 [new1 [Hc1 [Ha1 Hb1]]]] [Hid2 [new2 [Hc2 [Ha2 Hb2]]]].
  split; [congruence|]. exists (new1 ++ new2).
  split; [rewrite Hc2, Hc1, app_assoc; reflexivity|]. split.
  - intros Hcur Hst. apply orb_false_iff in Hst. destruct Hst as [Hs1 Hs2].
    destruct (Ha1 Hcur Hs1) as [Hcur1 Hn1].
    destruct (Ha2 Hcur1 Hs2) as [Hcur2 Hn2].
    split; [exact Hcur2|]. apply Forall_app. split; assumption.
  - intros Hsv. destruct (Hb1 Hsv) as [_ Hinv1].
    destruct (Hb2 Hsv) as [Hr2 Hinv2]. split.
    + intros Hok. apply andb_true_iff in Hok. apply Hr2. apply Hok.
    + intros Hinv. apply Hinv2, Hinv1, Hinv.
Qed.

Lemma keeps_end {A B : Type} (s1 ok1 s2 ok2 : bool)
  (w w1 : world client.ChargePoint) (r1 : result A) (r2 : result B) :
  keeps E s1 ok1 w (r1, w1) ->
  ((exists a, r1 = Ok a) -> exists b, r2 = Ok b) ->
  keeps E (s1 || s2) (ok1 && ok2) w (r2, w1).
Proof.
  unfold keeps. intros [Hid [new [Hc [Ha Hb]]]] Hres.
  split; [exact Hid|]. exists new. split; [exact Hc|]. split.
  - intros Hcur Hst. apply orb_false_iff in Hst. apply Ha; tauto.
  - intros Hsv. destruct (Hb Hsv) as [Hr Hinv]. split; [|exact Hinv].
    intros Hok. apply andb_true_iff in Hok. apply Hres, Hr, Hok.
Qed.

Lemma run_script_keeps (steps : list step) :
  forall w : world client.ChargePoint,
    keeps E (existsb is_start_step steps)
      (forallb (fun st => has_required_keys st && payload_ok members st) steps)
      w (run_script steps w).
Proof.
  induction steps as [|st rest IH]; intros w.
  - simpl. unfold ret, keeps. split; [reflexivity|]. exists [].
    split; [rewrite app_nil_r; reflexivity|].
    split; [intros H _; split; [exact H | constructor]|].
    intros _. split; [intros _; exists tt; reflexivity | intros H; exact H].
  - rewrite run_script_cons. cbn [existsb forallb].
    pose proof (run_step_keeps st w) as Hst.
    destruct (run_step st w) as [[[|]|e|] w1].
    + eapply keeps_seq; [exact Hst | apply IH].
    + eapply keeps_end; [exact Hst|]. intros _. exists tt. reflexivity.
    + eapply keeps_end; [exact Hst|]. intros [a Ha]. discriminate Ha.
    + eapply keeps_end; [exact Hst|]. intros [a Ha]. discriminate Ha.
Qed.

(** X15.  Without a StartTransaction there is no transaction: a script
    with no start_transaction step, run on a charge point with no current
    transaction, sends no MeterValues and no StopTransaction Call,
    whatever the peer answers, and ends with no current transaction. *)
Theorem run_script_no_transaction (steps : list step)
  (w : world client.ChargePoint) :
  client.current_transaction_id (self w) = None ->
  existsb is_start_step steps = false ->
  let (r, w') := run_script steps w in
  client.current_transaction_id (self w') = None /\
  exists new : list call.request,
    calls_of (trace w') = calls_of (trace w) ++ new /\
    Forall (fun req => of_transaction req = false) new.
Proof.
  intros Hcur Hno.
  pose proof (run_script_keeps steps w) as H. unfold keeps in H.
  destruct (run_script steps w) as [r w'].
  destruct H as [_ [new [Hc [Ha _]]]].
  destruct (Ha Hcur Hno) as [Hcur' Hnew].
  split; [exact Hcur'|]. exists new. split; assumption.
Qed.

(** X16.  Against the central system of this repository a scenario runs
    through: when every Call ends as the library and the server's
    handlers let it end, every step has the keys it needs, and every
    status and idTag in the script passes the library's check (a status
    that is a member name or a status value, an idTag of at most 20
    characters), the script returns; no operation of the client
    raises. *)
Theorem run_script_served (steps : list step) (w : world client.ChargePoint) :
  served_by E ->
  forallb has_required_keys steps = true ->
  forallb (payload_ok members) steps = true ->
  fst (run_script steps w) = Ok tt.
Proof.
  intros Hsv Hkeys Hpay.
  pose proof (run_script_keeps steps w) as H. unfold keeps in H.
  destruct (run_script steps w) as [r w'].
  destruct H as [_ [new [_ [_ Hb]]]].
  destruct (Hb Hsv) as [Hr _].
  destruct Hr as [[] Hok]; [|exact Hok].
  clear - Hkeys Hpay. induction steps as [|st rest IH]; [reflexivity|].
  cbn [forallb] in *.
  apply andb_true_iff in Hkeys. apply andb_true_iff in Hpay.
  destruct Hkeys as [Hk1 Hk2]. destruct Hpay as [Hp1 Hp2].
  rewrite Hk1, Hp1. apply IH; assumption.
Qed.

(** X17.  Against the central system of this repository the only
    transaction id a charge point ever holds is 1: whatever the script,
    a charge point whose current transaction is none or 1 ends with its
    current transaction none or 1. *)
Theorem run_script_transaction_one (steps : list step)
  (w : world client.ChargePoint) :
  served_by E ->
  none_or_one (self w) ->
  none_or_one (self (snd (run_script steps w))).
Proof.
  intros Hsv Hinv.
  pose proof (run_script_keeps steps w) as H. unfold keeps in H.
  destruct (run_script steps w) as [r w'].
  destruct H as [_ [new [_ [_ Hb]]]].
  destruct (Hb Hsv) as [_ Hkeep]. exact (Hkeep Hinv).
Qed.

Lemma run_script_id (steps : list step) (w : world client.ChargePoint) :
  client.id (self (snd (run_script steps w))) = client.id (self w).
Proof.
  pose proof (run_script_keeps steps w) as H. unfold keeps in H.
  destruct (run_script steps w) as [r w']. exact (proj1 H).
Qed.

Lemma run_step_boot (st : step) (w : world client.ChargePoint) :
  is_boot_step st = true ->
  run_step st w =
  bind (client.send_boot_notification E)
       (fun _ => ret scenario_runner.Next) w.
Proof.
  unfold is_boot_step, scenario_runner.run_step.
  destruct (scenario_runner.action st) as [act|]; [|discriminate].
  intros Hb. cbv [scenario_runner.subscript].
  change (bind (ret act) ?k w) with (k act w). cbv beta.
  rewrite Hb. reflexivity.
Qed.

(** X18.  Nothing guards a second boot.  Against the central system of
    this repository every boot step is accepted and creates one more
    heartbeat task: a script of [n] boot steps returns with [n]
    heartbeat tasks created, and for [n > 0] the interval recorded is
    10. *)
Theorem run_script_boots (steps : list step) :
  served_by E ->
  forallb is_boot_step steps = true ->
  forall w : world client.ChargePoint,
    let (r, w') := run_script steps w in
    r = Ok tt /\
    tasks_of (trace w') =
      tasks_of (trace w) ++ repeat heartbeat_loop_task (List.length steps) /\
    client.heartbeat_interval (self w') =
      match steps with
      | [] => client.heartbeat_interval (self w)
      | _ :: _ => 10
      end.
Proof.
  intros Hsv. induction steps as [|st rest IH]; intros Hboot w.
  - simpl. split; [reflexivity|]. split; [rewrite app_nil_r; reflexivity|].
    reflexivity.
  - cbn [forallb] in Hboot. apply andb_true_iff in Hboot.
    destruct Hboot as [Hst Hrest].
    rewrite run_script_cons, (run_step_boot st w Hst).
    unfold bind at 1. rewrite send_boot_notification_eq. cbv zeta.
    destruct (served_by_boot
                (trace w ++ [Log INFO "%s: sending BootNotification"])
                Hsv) as [ct Hct].
    rewrite Hct. cbn [RegistrationStatus.eqb ret].
    set (w1 := World _ _).
    specialize (IH Hrest w1).
    destruct (run_script rest w1) as [r w'].
    destruct IH as [Hr [Htasks Hint]].
    split; [exact Hr|]. split.
    + rewrite Htasks. unfold w1. cbn [trace].
      rewrite !tasks_of_app. simpl. rewrite !app_nil_r, <- app_assoc.
      reflexivity.
    + rewrite Hint. destruct rest; reflexivity.
Qed.

End ScenarioRunner.


(* --------------------------------------------------------------------- *)
(** *** The properties at work *)
(* --------------------------------------------------------------------- *)

Lemma csms_served_by : served_by peers.csms.
Proof.
  intros h req.
  exists (Env (fun _ _ => Returns None) peers.fixed_clock),
         (World (server.mkCentralSystemChargePoint "CP_1") []).
  reflexivity.
Qed.

(** The session script run to its exit step, with a step behind it. *)
Lemma run_script_exit_witness :
  scenario_runner.run_script peers.csms string peers.str_id peers.member_names
    ([scripts.step_of "boot"] ++
       scripts.step_of "exit" :: [scripts.start_step "TAG1"]) peers.cp_idle =
  scenario_runner.run_script peers.csms string peers.str_id peers.member_names
    ([scripts.step_of "boot"] ++ [scripts.step_of "exit"]) peers.cp_idle.
Proof.
  apply (run_script_exit peers.csms string peers.str_id peers.member_names
           [scripts.step_of "boot"] [scripts.start_step "TAG1"]
           (scripts.step_of "exit")).
  reflexivity.
Defined.

(** The peer is silent: the boot times out and the start is never
    tried. *)
Lemma run_script_abort_witness :
  scenario_runner.run_script peers.silent string peers.str_id
    peers.member_names
    ([scripts.step_of "boot"] ++ [scripts.start_step "TAG1"]) peers.cp_idle =
  (Raised TimeoutError,
   World (client.init "CP_1")
     [Log INFO "%s: sending BootNotification";
      Call (call.BootNotification "MyTestModel" "MyStartup")]).
Proof.
  apply (run_script_abort peers.silent string peers.str_id peers.member_names
           [scripts.step_of "boot"] [scripts.start_step "TAG1"] TimeoutError
           peers.cp_idle).
  reflexivity.
Defined.

Lemma run_script_unknown_action_witness :
  scenario_runner.run_script peers.csms string peers.str_id peers.member_names
    (scripts.step_of "reboot" :: [scripts.step_of "boot"]) peers.cp_idle =
  scenario_runner.run_script peers.csms string peers.str_id peers.member_names
    [scripts.step_of "boot"]
    (World (self peers.cp_idle)
       (trace peers.cp_idle ++ [Log WARNING "Unknown action in scenario: %s"])).
Proof.
  apply (run_script_unknown_action peers.csms string peers.str_id
           peers.member_names (scripts.step_of "reboot")
           [scripts.step_of "boot"] "reboot" peers.cp_idle).
  - reflexivity.
  - simpl. intros H.
    repeat (destruct H as [H|H]; [discriminate H|]). exact H.
Defined.

(** A status step without its status. *)
Lemma run_script_missing_key_witness :
  exists key : string,
    scenario_runner.run_script peers.csms string peers.str_id
      peers.member_names
      (scripts.step_of "status" :: [scripts.step_of "boot"]) peers.cp_idle =
    (Raised (scenario_runner.KeyError key), peers.cp_idle).
Proof.
  apply (run_script_missing_key peers.csms string peers.str_id
           peers.member_names (scripts.step_of "status")
           [scripts.step_of "boot"] peers.cp_idle).
  reflexivity.
Defined.

(** Meter values and a stop with no transaction started, against a peer
    that would answer. *)
Lemma run_script_no_transaction_witness :
  let steps := [scripts.step_of "boot"; scripts.meter_step ["10.0"];
                scripts.step_of "stop_transaction"] in
  let (r, w') :=
    scenario_runner.run_script peers.csms string peers.str_id
      peers.member_names steps peers.cp_idle in
  client.current_transaction_id (self w') = None /\
  exists new : list call.request,
    calls_of (trace w') = calls_of (trace peers.cp_idle) ++ new /\
    Forall (fun req => of_transaction req = false) new.
Proof.
  apply (run_script_no_transaction peers.csms string peers.str_id
           peers.member_names
           [scripts.step_of "boot"; scripts.meter_step ["10.0"];
            scripts.step_of "stop_transaction"] peers.cp_idle);
    reflexivity.
Defined.

Lemma run_script_served_witness :
  fst (scenario_runner.run_script peers.csms string peers.str_id
         peers.member_names scripts.session peers.cp_idle) = Ok tt.
Proof.
  apply (run_script_served peers.csms string peers.str_id peers.member_names
           scripts.session peers.cp_idle).
  - exact csms_served_by.
  - reflexivity.
  - reflexivity.
Defined.

Lemma run_script_transaction_one_witness :
  none_or_one
    (self (snd (scenario_runner.run_script peers.csms string peers.str_id
                  peers.member_names
                  [scripts.start_step "TAG1"; scripts.start_step "TAG2"]
                  peers.cp_idle))).
Proof.
  apply (run_script_transaction_one peers.csms string peers.str_id
           peers.member_names
           [scripts.start_step "TAG1"; scripts.start_step "TAG2"]
           peers.cp_idle).
  - exact csms_served_by.
  - left. reflexivity.
Defined.

Lemma run_script_boots_witness :
  let (r, w') :=
    scenario_runner.run_script peers.csms string peers.str_id
      peers.member_names [scripts.step_of "boot"; scripts.step_of "boot"]
      peers.cp_idle in
  r = Ok tt /\
  tasks_of (trace w') =
    tasks_of (trace peers.cp_idle) ++ repeat heartbeat_loop_task 2 /\
  client.heartbeat_interval (self w') = 10.
Proof.
  apply (run_script_boots peers.csms string peers.str_id peers.member_names
           [scripts.step_of "boot"; scripts.step_of "boot"]
           csms_served_by eq_refl peers.cp_idle).
Defined.

Example session_calls :
  map of_transaction
    (calls_of (trace (snd (scenario_runner.run_script peers.csms string
                             peers.str_id peers.member_names scripts.session
                             peers.cp_idle))))
  = [false; false; false; true; true; true; false].
Proof. reflexivity. Qed.
